(** * Metrics: a store of timestamped events aggregated into periods

    A shallow embedding of [core/lib/metrics.js]: the [Metrics] class
    (event store, metric registry, timer marks, period list) and the
    [defaultAggregator] that folds the pending events of one window
    into a period.

    Conventions of the embedding.
    - A JS object used as a dictionary ([_events], [_eventTypes],
      [_eventNames], [_timers], [period.metrics], and the period object
      itself, which receives computed keys) is a [gmap string _].
    - [Date.now()] and [uuid()] are read from the environment: every
      operation that calls them takes the reading as an argument.
    - Timestamps are integers (milliseconds); sample values are taken
      to be integers; the per-second rate of a meter is an exact
      rational ([Qc]) where the source computes a double.
    - A method that dereferences [this._events[name]] or
      [this._timers[name]] throws a TypeError when the key is absent;
      such methods return [option], [None] standing for the throw.
    - The hdr-histogram-js library is not part of the module: it is an
      interface ([HdrHistogram]) the development is parametric in.

    The console reporter of [lib/console-reporter.js] is embedded in
    the module [ConsoleReporter], with what it writes kept as a list of
    outputs. *)

From Stdlib Require Import ZArith QArith Qcanon Qround Lqa String.
From stdpp Require Import gmap strings list fin_maps sorting.

Local Open Scope string_scope.
Local Open Scope Z_scope.

(** ** JavaScript values the module computes with *)

(** A number that may be [Infinity] ([getEarliestEventTimestamp]). *)
Inductive Num :=
| Fin (z : Z)
| Infinity.

Definition Math_min (a b : Num) : Num :=
  match a, b with
  | Fin x, Fin y => Fin (Z.min x y)
  | Fin x, Infinity => Fin x
  | Infinity, b => b
  end.

(** The result of reading a property that holds a number, if it exists. *)
Inductive JsVal :=
| JUndefined
| JNumber (z : Z).

(** ToBoolean: [undefined] and [0] are falsy. *)
Definition truthy (v : JsVal) : bool :=
  match v with
  | JUndefined => false
  | JNumber z => negb (z =? 0)
  end.

(** [a >= b] and [a <= b] with a number on the right: [undefined]
    converts to NaN and every comparison with NaN is false. *)
Definition js_ge (a : JsVal) (b : Z) : bool :=
  match a with
  | JUndefined => false
  | JNumber x => b <=? x
  end.

Definition js_le (a : JsVal) (b : Z) : bool :=
  match a with
  | JUndefined => false
  | JNumber x => x <=? b
  end.

Definition Z2Qc (z : Z) : Qc := Q2Qc (inject_Z z).

(** [Math.round]: the nearest integer, ties towards +Infinity. *)
Definition Math_round (x : Qc) : Z := Qfloor (x + Q2Qc (1 # 2))%Qc.

(** [Math.pow(10, decimals)] for a natural number of decimals. *)
Definition pow10 (decimals : nat) : Z := 10 ^ Z.of_nat decimals.

(** [round(number, decimals)], the module's last function. *)
Definition round (number : Qc) (decimals : nat) : Qc :=
  let m := Z2Qc (pow10 decimals) in
  (Z2Qc (Math_round (number * m)) / m)%Qc.

(** [Object.keys(o)]. *)
Definition Object_keys {V} (o : gmap string V) : list string :=
  (map_to_list o).*1.

(** [list.forEach(f)] for a body that threads a state and may throw. *)
Fixpoint forEach {A S} (f : S → A → option S) (l : list A) (s : S) : option S :=
  match l with
  | [] => Some s
  | x :: l' => s' ← f s x; forEach f l' s'
  end.

(** ** The data model *)

(** An element of [this._events[name]]: [{ ts, v, tags }]. *)
Record Event := mkEvent {
  ts : Z;
  v : Z;
  tags : gmap string string
}.

(** The object literals of [markStart] and [markEnd]:
    [{ sat, id }] and [{ eat, id }]. *)
Inductive MarkObj :=
| StartMark (sat : Z) (id : string)
| EndMark (eat : Z) (id : string).

(** An element of [this._timers[name]].  [markStart] and [markEnd] push
    the literal wrapped in brackets, [[{ sat, id }]]: every element is
    an Array holding the mark. *)
Abbreviation TimerEntry := (list MarkObj).

(** Reading a named property of an Array.  The module reads [ts], [sat]
    and [eat] on the elements of a timer sequence; an Array has none of
    them (index keys, which would yield an element, are never read). *)
Definition Array_prop (e : TimerEntry) (k : string) : JsVal :=
  if String.eqb k "length" then JNumber (Z.of_nat (length e)) else JUndefined.

(** The timestamps a timer element carries, for stating what remains in
    a sequence. *)
Definition markStamp (m : MarkObj) : Z :=
  match m with
  | StartMark sat _ => sat
  | EndMark eat _ => eat
  end.

(** An argument of [describeMetric]: [{ name, type, displayName }];
    [type] and [displayName] may be missing. *)
Record MetricDef := mkMetricDef {
  name : string;
  type : option string;
  displayName : option string
}.

(** The five-field value of a histogram entry. *)
Record HistValue := mkHistValue {
  min : Qc;
  max : Qc;
  median : Qc;
  p95 : Qc;
  p99 : Qc
}.

Inductive MetricValue :=
| VNumber (z : Z)
| VRate (q : Qc)
| VHist (h : HistValue).

(** An entry [{ type, value, unit? }] of a period. *)
Record Entry := mkEntry {
  etype : string;
  value : MetricValue;
  unit : option string
}.

(** What a key of the period object can hold. *)
Inductive PVal :=
| PString (s : string)
| PNumber (z : Z)
| PMetrics (m : gmap string Entry)
| PEntry (e : Entry).

(** The period object: the literal [{ id, startsAt, endsAt, metrics }]
    plus whatever computed keys are assigned to it. *)
Abbreviation Period := (gmap string PVal).

(** The instance state. *)
Record Metrics := mkMetrics {
  _aggregationIntervalMs : Z;
  _aggregationLagMs : Z;
  _events : gmap string (list Event);
  _eventTypes : gmap string (option string);
  _eventNames : gmap string string;
  _timers : gmap string (list TimerEntry);
  _periods : list Period;
  _nextPeriodBeginning : option Z
}.

Definition set_events (f : gmap string (list Event) → gmap string (list Event))
    (s : Metrics) : Metrics :=
  mkMetrics (_aggregationIntervalMs s) (_aggregationLagMs s) (f (_events s))
    (_eventTypes s) (_eventNames s) (_timers s) (_periods s)
    (_nextPeriodBeginning s).

Definition set_eventTypes (f : gmap string (option string) → gmap string (option string))
    (s : Metrics) : Metrics :=
  mkMetrics (_aggregationIntervalMs s) (_aggregationLagMs s) (_events s)
    (f (_eventTypes s)) (_eventNames s) (_timers s) (_periods s)
    (_nextPeriodBeginning s).

Definition set_eventNames (f : gmap string string → gmap string string)
    (s : Metrics) : Metrics :=
  mkMetrics (_aggregationIntervalMs s) (_aggregationLagMs s) (_events s)
    (_eventTypes s) (f (_eventNames s)) (_timers s) (_periods s)
    (_nextPeriodBeginning s).

Definition set_timers (f : gmap string (list TimerEntry) → gmap string (list TimerEntry))
    (s : Metrics) : Metrics :=
  mkMetrics (_aggregationIntervalMs s) (_aggregationLagMs s) (_events s)
    (_eventTypes s) (_eventNames s) (f (_timers s)) (_periods s)
    (_nextPeriodBeginning s).

Definition set_periods (f : list Period → list Period) (s : Metrics) : Metrics :=
  mkMetrics (_aggregationIntervalMs s) (_aggregationLagMs s) (_events s)
    (_eventTypes s) (_eventNames s) (_timers s) (f (_periods s))
    (_nextPeriodBeginning s).

Definition set_nextPeriodBeginning (c : Z) (s : Metrics) : Metrics :=
  mkMetrics (_aggregationIntervalMs s) (_aggregationLagMs s) (_events s)
    (_eventTypes s) (_eventNames s) (_timers s) (_periods s) (Some c).

(** ** The constructor *)

(** [opts]: the two fields the constructor reads, in seconds. *)
Record Opts := mkOpts {
  aggregationInterval : option Z;
  aggregationLag : option Z
}.

(** [x || d] for an optional number: [undefined] and [0] fall through. *)
Definition or_default (x : option Z) (d : Z) : Z :=
  match x with
  | Some n => if n =? 0 then d else n
  | None => d
  end.

Definition new (opts : Opts) : Metrics :=
  mkMetrics (or_default (aggregationInterval opts) 10 * 1000)
    (or_default (aggregationLag opts) 10 * 1000) ∅ ∅ ∅ ∅ [] None.

(** [create()]. *)
Definition create : Metrics := new (mkOpts None None).

(** ** Declaring and recording *)

(** The body of the [forEach] in [describeMetric]. *)
Definition describeOne (s : Metrics) (o : MetricDef) : Metrics :=
  let s1 :=
    if bool_decide (type o = Some "watermark")
    then set_timers (<[name o := []]>) s
    else set_events (<[name o := []]>) s in
  let s2 := set_eventTypes (<[name o := type o]>) s1 in
  set_eventNames
    (<[name o := match displayName o with
                 | Some d => if String.eqb d "" then name o else d
                 | None => name o
                 end]>) s2.

(** [describeMetric(list)] and [describeMetrics(list)]. *)
Definition describeMetrics (s : Metrics) (metricDefinitions : list MetricDef) : Metrics :=
  foldl describeOne s metricDefinitions.

(** [describeMetric(name, type)]. *)
Definition describeMetric (s : Metrics) (name : string) (type : option string) : Metrics :=
  describeMetrics s [mkMetricDef name type None].

(** [event(name, value, tags)] at clock reading [now]. *)
Definition event (s : Metrics) (now : Z) (name : string) (value : Z)
    (tags : gmap string string) : Metrics :=
  let s1 :=
    match _events s !! name with
    | Some _ => s
    | None => set_events (<[name := []]>) s
    end in
  set_events
    (λ evs, <[name := (default [] (evs !! name) ++ [mkEvent now value tags])%list]> evs)
    s1.

Definition meter (s : Metrics) (now : Z) (name : string) : Metrics :=
  event s now name 1 ∅.

Definition histogram (s : Metrics) (now : Z) (name : string) (value : Z) : Metrics :=
  event s now name value ∅.

Definition counter (s : Metrics) (now : Z) (name : string) (value : Z) : Metrics :=
  event s now name value ∅.

Definition markStart (s : Metrics) (now : Z) (name : string) (id : string) : Metrics :=
  let s1 :=
    match _timers s !! name with
    | Some _ => s
    | None => set_timers (<[name := []]>) s
    end in
  set_timers
    (λ tm, <[name := (default [] (tm !! name) ++ [[StartMark now id]])%list]> tm) s1.

Definition markEnd (s : Metrics) (now : Z) (name : string) (id : string) : Metrics :=
  let s1 :=
    match _timers s !! name with
    | Some _ => s
    | None => set_timers (<[name := []]>) s
    end in
  set_timers
    (λ tm, <[name := (default [] (tm !! name) ++ [[EndMark now id]])%list]> tm) s1.

(** ** Reading and pruning the store *)

Definition listEvents (s : Metrics) : list string := Object_keys (_events s).

Definition getEventDisplayName (s : Metrics) (name : string) : option string :=
  _eventNames s !! name.

(** [getEventType(name)]: [None] is [undefined], for a name never
    declared and for one declared without a type. *)
Definition getEventType (s : Metrics) (name : string) : option string :=
  mjoin (_eventTypes s !! name).

(** The range test of [getEventData]: both bounds inclusive. *)
Definition inWindow (gte lte : Z) (e : Event) : bool :=
  (gte <=? ts e) && (ts e <=? lte).

Definition getEventData (s : Metrics) (name : string) (gte lte : Z)
    : option (list Event) :=
  evs ← _events s !! name;
  Some (List.filter (inWindow gte lte) evs).

(** The parameters are declared in the order [(name, lte, gte)]. *)
Definition getTimerData (s : Metrics) (name : string) (lte gte : Z)
    : option (list TimerEntry) :=
  marks ← _timers s !! name;
  Some (List.filter
          (λ e, js_ge (Array_prop e "ts") gte && js_le (Array_prop e "ts") lte)
          marks).

Definition deleteEventData (s : Metrics) (name : string) (gte lte : Z)
    : option Metrics :=
  evs ← _events s !! name;
  Some (set_events (<[name := List.filter (λ e, lte <? ts e) evs]>) s).

(** The test both the [reduce] and the [filter] of [deleteTimerData]
    apply to a property [p] of an element. *)
Definition markInRange (e : TimerEntry) (p : string) (gte lte : Z) : bool :=
  truthy (Array_prop e p) && js_le (Array_prop e p) lte
  && js_ge (Array_prop e p) gte.

Definition deleteTimerData (s : Metrics) (name : string) (gte lte : Z)
    : option Metrics :=
  marks ← _timers s !! name;
  let stats :=
    foldl (λ '(sats, eats) e,
             let eats' := if markInRange e "eat" gte lte then eats + 1 else eats in
             let sats' := if markInRange e "sat" gte lte then sats + 1 else sats in
             (sats', eats'))
          (0, 0) marks in
  let kept :=
    List.filter (λ e, markInRange e "eat" gte lte || markInRange e "sat" gte lte)
      marks in
  let kept' := if stats.2 <? stats.1 then ([] ++ kept)%list else kept in
  Some (set_timers (<[name := kept']>) s).

(** [getEarliestEventTimestamp()].  The keys are own keys of [_events],
    so the lookup in the [map] callback always finds a sequence. *)
Definition getEarliestEventTimestamp (s : Metrics) : Num :=
  let ts_ :=
    map (λ e, match _events s !! e with
              | Some (ev :: _) => Fin (ts ev)
              | _ => Infinity
              end)
        (Object_keys (_events s)) in
  foldl Math_min Infinity ts_.

(** ** Querying periods *)

Global Instance HistValue_eq_dec : EqDecision HistValue.
Proof. solve_decision. Defined.

Global Instance MetricValue_eq_dec : EqDecision MetricValue.
Proof. solve_decision. Defined.

Global Instance Entry_eq_dec : EqDecision Entry.
Proof. solve_decision. Defined.

Global Instance PVal_eq_dec : EqDecision PVal.
Proof. solve_decision. Defined.

(** [listPeriods]: the value handed to the callback or the promise. *)
Definition listPeriods (s : Metrics) : list (option PVal) :=
  map (λ p : Period, p !! "id") (_periods s).

(** [getPeriod(id)]: [_.find] returns [undefined] ([None]) when no
    period has that id. *)
Definition getPeriod (s : Metrics) (id : string) : option Period :=
  List.find (λ p : Period, bool_decide (p !! "id" = Some (PString id)))
    (_periods s).

(** [getLastPeriod(cb)]: the value handed to [cb], the literal [{}]. *)
Definition getLastPeriod (s : Metrics) : Period := ∅.

(** Reading the fields of a stored period. *)
Definition startsAt (p : Period) : option Z :=
  match p !! "startsAt" with
  | Some (PNumber t) => Some t
  | _ => None
  end.

Definition endsAt (p : Period) : option Z :=
  match p !! "endsAt" with
  | Some (PNumber t) => Some t
  | _ => None
  end.

(** [period.metrics[name]], when [period.metrics] is the mapping. *)
Definition periodMetric (p : Period) (name : string) : option Entry :=
  match p !! "metrics" with
  | Some (PMetrics m) => m !! name
  | _ => None
  end.

(** ** The aggregator *)

(** The part of hdr-histogram-js the aggregator calls, with the options
    of [HdrHistogram.build] fixed as in the source. *)
Class HdrHistogram := {
  hdr : Type;
  hdr_build : hdr;
  recordValue : hdr → Z → hdr;
  minNonZeroValue : hdr → Qc;
  maxValue : hdr → Qc;
  getValueAtPercentile : hdr → Z → Qc
}.

(** [_.sum]. *)
Definition sum (l : list Z) : Z := foldl Z.add 0 l.

(** The window cursor or, when it is unset (or [0]), the earliest event:
    [this._nextPeriodBeginning || this.getEarliestEventTimestamp()]. *)
Definition earliestOf (s : Metrics) : Num :=
  match _nextPeriodBeginning s with
  | Some c => if c =? 0 then getEarliestEventTimestamp s else Fin c
  | None => getEarliestEventTimestamp s
  end.

(** The scan of the watermark loop: the running count [c] and its
    maximum [high], over the elements [getTimerData] returned. *)
Definition watermarkScan (eventStream : list TimerEntry) : Z * Z :=
  foldl (λ '(high, c) e,
           if truthy (Array_prop e "sat") then
             let c' := c + 1 in
             (if high <? c' then c' else high, c')
           else if truthy (Array_prop e "eat") then (high, c - 1)
           else (high, c))
        (0, 0) eventStream.

(** The entry of a watermark, as a value of a period key. *)
Definition watermarkEntry (high : Z) : PVal :=
  PEntry (mkEntry "watermark" (VNumber high) None).

(** The literal [{ id, startsAt, endsAt, metrics }]. *)
Definition periodLiteral (uuid : string) (earliest latest : Z)
    (metrics : gmap string Entry) : Period :=
  <["id" := PString uuid]>
    (<["startsAt" := PNumber earliest]>
       (<["endsAt" := PNumber latest]>
          (<["metrics" := PMetrics metrics]> ∅))).

(** The body of the watermark loop.  The entry is assigned to
    [period[name]], a key of the period object itself. *)
Definition aggregateTimer (earliest latest : Z) (acc : Metrics * Period)
    (name : string) : option (Metrics * Period) :=
  let '(s, period) := acc in
  eventStream ← getTimerData s name earliest latest;
  let high := (watermarkScan eventStream).1 in
  let period' := <[name := watermarkEntry high]> period in
  s' ← deleteTimerData s name earliest latest;
  Some (s', period').

Section Aggregator.
Context `{HdrHistogram}.

Definition histogramValue (eventStream : list Event) : HistValue :=
  let h := foldl (λ h e, recordValue h (v e)) hdr_build eventStream in
  mkHistValue (round (minNonZeroValue h) 2) (round (maxValue h) 2)
    (round (getValueAtPercentile h 50) 2)
    (round (getValueAtPercentile h 95) 2)
    (round (getValueAtPercentile h 99) 2).

(** The entry the event loop computes for a stream, by declared type;
    no branch applies to any other type, nor to [undefined]. *)
Definition entryOf (intervalMs : Z) (eventType : option string)
    (eventStream : list Event) : option Entry :=
  if bool_decide (eventType = Some "counter") then
    Some (mkEntry "counter" (VNumber (sum (map v eventStream))) None)
  else if bool_decide (eventType = Some "meter") then
    Some (mkEntry "meter"
            (VRate (round (Z2Qc (Z.of_nat (length eventStream))
                           / (Z2Qc intervalMs / Z2Qc 1000))%Qc 2))
            (Some "second"))
  else if bool_decide (eventType = Some "histogram") then
    Some (mkEntry "histogram" (VHist (histogramValue eventStream)) None)
  else None.

(** The body of the event loop, on the instance and on the object
    [period.metrics]. *)
Definition aggregateEvent (earliest latest : Z)
    (acc : Metrics * gmap string Entry) (name : string)
    : option (Metrics * gmap string Entry) :=
  let '(s, metrics) := acc in
  let eventType := getEventType s name in
  eventStream ← getEventData s name earliest latest;
  let metrics' :=
    match entryOf (_aggregationIntervalMs s) eventType eventStream with
    | Some e => <[name := e]> metrics
    | None => metrics
    end in
  s' ← deleteEventData s name earliest latest;
  Some (s', metrics').

(** [defaultAggregator], bound to [s], run at clock reading [now] with
    [uuid] the identifier [uuid()] would return.  The event loop only
    writes into the object [period.metrics], so the period literal is
    put together once that object is complete; the watermark loop then
    assigns to keys of the period.  The period pushed is the payload of
    the [aggregate] notification. *)
Definition defaultAggregator (s : Metrics) (now : Z) (uuid : string)
    : option Metrics :=
  match earliestOf s with
  | Infinity => Some s
  | Fin earliest =>
      let latest := earliest + _aggregationIntervalMs s in
      let withLag := latest + _aggregationLagMs s in
      if now <? withLag then Some s
      else
        let s1 := set_nextPeriodBeginning (latest + 1) s in
        '(s2, metrics) ← forEach (aggregateEvent earliest latest)
                           (listEvents s1) (s1, ∅);
        let period := periodLiteral uuid earliest latest metrics in
        '(s3, period') ← forEach (aggregateTimer earliest latest)
                           (Object_keys (_timers s2)) (s2, period);
        Some (set_periods (λ ps, (ps ++ [period'])%list) s3)
  end.

(** ** Runs of an instance *)

(** The calls that change an instance: declaring, recording ([counter],
    [meter] and [histogram] are [event]), marking, and the tick of the
    aggregation interval. *)
Inductive Call :=
| CallDescribeMetrics (metricDefinitions : list MetricDef)
| CallEvent (name : string) (value : Z) (tags : gmap string string)
| CallMarkStart (name id : string)
| CallMarkEnd (name id : string)
| CallAggregate (uuid : string).

(** One call at a clock reading. *)
Definition step (s : Metrics) (c : Z * Call) : option Metrics :=
  match c with
  | (_, CallDescribeMetrics defs) => Some (describeMetrics s defs)
  | (now, CallEvent name value tags) => Some (event s now name value tags)
  | (now, CallMarkStart name id) => Some (markStart s now name id)
  | (now, CallMarkEnd name id) => Some (markEnd s now name id)
  | (now, CallAggregate uuid) => defaultAggregator s now uuid
  end.

Definition run (s : Metrics) (trace : list (Z * Call)) : option Metrics :=
  forEach step trace s.


(** ** The outcome of a closing tick, in closed form *)

(** What the two loops compute, written without the loops;
    [defaultAggregator_closes] proves that a closing tick returns
    [closedState].  The entries of [period.metrics] for the window: one
    for each event sequence whose declared type the event loop knows. *)
Definition windowEntries (s : Metrics) (earliest latest : Z) : gmap string Entry :=
  map_imap
    (λ name evs, entryOf (_aggregationIntervalMs s) (getEventType s name)
                   (List.filter (inWindow earliest latest) evs))
    (_events s).

(** The period: the literal, with an entry of high-water mark 0 put
    under the name of every timer sequence. *)
Definition closedPeriod (s : Metrics) (earliest : Z) (uuid : string) : Period :=
  let latest := earliest + _aggregationIntervalMs s in
  ((λ _, watermarkEntry 0) <$> _timers s)
  ∪ periodLiteral uuid earliest latest (windowEntries s earliest latest).

(** The instance: events up to [latest] pruned, timer sequences
    emptied, the period appended, the cursor one past [latest]. *)
Definition closedState (s : Metrics) (earliest : Z) (uuid : string) : Metrics :=
  let latest := earliest + _aggregationIntervalMs s in
  mkMetrics (_aggregationIntervalMs s) (_aggregationLagMs s)
    (List.filter (λ ev, latest <? ts ev) <$> _events s)
    (_eventTypes s) (_eventNames s)
    ((λ _, []) <$> _timers s)
    (_periods s ++ [closedPeriod s earliest uuid])%list
    (Some (latest + 1)).

End Aggregator.

(** ** Vocabulary of the statements *)

(** A tick that finds a window [earliest, latest] closable at [now]. *)
Definition closes (s : Metrics) (now earliest : Z) : Prop :=
  earliestOf s = Fin earliest ∧
  earliest + _aggregationIntervalMs s + _aggregationLagMs s ≤ now.

(** The keys of the period literal. *)
Definition periodKeys : list string := ["id"; "startsAt"; "endsAt"; "metrics"].

(** No timer sequence is named like a key of the period literal. *)
Definition plainTimers (s : Metrics) : Prop :=
  ∀ k, k ∈ periodKeys → _timers s !! k = None.




(** ** A reference histogram, to run the model on concrete inputs *)

(** An exact histogram over the list of recorded samples: the least
    non-zero sample, the greatest sample, and the sample at the rank of
    a percentile. *)
Definition exact_minNonZero (h : list Z) : Z :=
  match List.filter (λ x, negb (x =? 0)) h with
  | [] => 0
  | x :: l => foldl Z.min x l
  end.

Definition exact_max (h : list Z) : Z := foldl Z.max 0 h.

Definition exact_percentile (h : list Z) (p : Z) : Z :=
  let sorted := merge_sort Z.le h in
  let rank := (p * Z.of_nat (length h) + 99) / 100 in
  nth (Z.to_nat (rank - 1)) sorted 0.

Definition exactHistogram : HdrHistogram := {|
  hdr := list Z;
  hdr_build := [];
  recordValue h x := x :: h;
  minNonZeroValue h := Z2Qc (exact_minNonZero h);
  maxValue h := Z2Qc (exact_max h);
  getValueAtPercentile h p := Z2Qc (exact_percentile h p)
|}.

(** ** The watermark as the specification words it *)

(** A mark is a timestamp with the step it makes: [+1] for a start,
    [-1] for a stop.  Marks are ordered by timestamp. *)
Definition earlierMark (a b : Z * Z) : Prop := a.1 ≤ b.1.

Global Instance earlierMark_dec : RelDecision earlierMark.
Proof. intros a b. unfold earlierMark. apply _. Defined.

(** Following the spec's words (watermark computation): the start and
    stop marks of the window merged in timestamp order, a running
    counter incremented on each start and decremented on each stop,
    and the maximum the counter reaches. *)
Definition spec_highWaterMark (starts stops : list Z) : Z :=
  let marks :=
    merge_sort earlierMark
      (map (λ t, (t, 1)) starts ++ map (λ t, (t, -1)) stops)%list in
  (foldl (λ '(high, c) m, let c' := c + m.2 in (Z.max high c', c'))
     (0, 0) marks).1.

(** ** Scenarios *)

(** The first test of [metrics.test.js]: interval and lag of two
    seconds, four declared metrics, a counter bumped by 1 and by 2, two
    meter ticks and a few histogram samples, all at clock 1000. *)
Definition testOpts : Opts := mkOpts (Some 2) (Some 2).

Definition basicTrace : list (Z * Call) :=
  [ (1000, CallDescribeMetrics
             [mkMetricDef "engine.http.request.count" (Some "counter") None]);
    (1000, CallDescribeMetrics
             [mkMetricDef "engine.http.response.code.200" (Some "counter") None]);
    (1000, CallDescribeMetrics
             [mkMetricDef "engine.http.response.time" (Some "histogram") None]);
    (1000, CallDescribeMetrics
             [mkMetricDef "engine.http.response.rate" (Some "meter") None]);
    (1000, CallEvent "engine.http.request.count" 1 ∅);
    (1000, CallEvent "engine.http.request.count" 2 ∅);
    (1000, CallEvent "engine.http.response.rate" 1 ∅);
    (1000, CallEvent "engine.http.response.rate" 1 ∅);
    (1000, CallEvent "engine.http.response.time" 250 ∅);
    (1000, CallEvent "engine.http.response.time" 730 ∅);
    (1000, CallEvent "engine.http.response.time" 12 ∅) ].

(** The instance the recording part of the test leaves behind. *)
Definition basicState : Metrics :=
  Eval vm_compute in
    default create (run (H := exactHistogram) (new testOpts) basicTrace).

(** The test continued: a first tick once the lag has passed. *)
Definition onePeriodTrace : list (Z * Call) :=
  (basicTrace ++ [ (5000, CallAggregate "5f0c") ])%list.

(** Then one more sample and a second tick. *)
Definition twoPeriodsTrace : list (Z * Call) :=
  (onePeriodTrace
   ++ [ (5200, CallEvent "engine.http.request.count" 4 ∅);
        (8000, CallAggregate "a81e") ])%list.

(** A watermark metric next to a counter, default interval and lag of
    ten seconds: three starts at 1000, 2000 and 3000, three stops at
    2500, 4000 and 5000 (two requests in flight at the peak), then the
    first tick that can close the window [1000, 11000]. *)
Definition watermarkTrace : list (Z * Call) :=
  [ (900, CallDescribeMetrics
            [mkMetricDef "engine.http.request.concurrency" (Some "watermark") None;
             mkMetricDef "engine.http.request.count" (Some "counter") None]);
    (1000, CallEvent "engine.http.request.count" 1 ∅);
    (1000, CallMarkStart "engine.http.request.concurrency" "r1");
    (2000, CallMarkStart "engine.http.request.concurrency" "r2");
    (2500, CallMarkEnd "engine.http.request.concurrency" "r1");
    (3000, CallMarkStart "engine.http.request.concurrency" "r3");
    (4000, CallMarkEnd "engine.http.request.concurrency" "r2");
    (5000, CallMarkEnd "engine.http.request.concurrency" "r3");
    (21000, CallAggregate "c3d4") ].

(** A name that is recorded without ever being declared. *)
Definition undeclaredTrace : list (Z * Call) :=
  [ (1000, CallEvent "errors.ETIMEDOUT" 1 ∅);
    (1500, CallEvent "errors.ETIMEDOUT" 2 ∅) ].

(** The instances the scenarios end in. *)
Definition onePeriodFinal : Metrics :=
  Eval vm_compute in
    default create (run (H := exactHistogram) (new testOpts) onePeriodTrace).


Definition watermarkFinal : Metrics :=
  Eval vm_compute in
    default create (run (H := exactHistogram) create watermarkTrace).

Definition undeclaredRecorded : Metrics :=
  Eval vm_compute in
    default create (run (H := exactHistogram) create undeclaredTrace).

Definition undeclaredFinal : Metrics :=
  Eval vm_compute in
    default create
      (defaultAggregator (H := exactHistogram) undeclaredRecorded 21000 "e5f6").

(** The periods they produce. *)
Definition onePeriodResult : Period :=
  Eval vm_compute in default ∅ (last (_periods onePeriodFinal)).

Definition watermarkPeriod : Period :=
  Eval vm_compute in default ∅ (last (_periods watermarkFinal)).

Definition undeclaredPeriod : Period :=
  Eval vm_compute in default ∅ (last (_periods undeclaredFinal)).

(** ** Vocabulary of the further properties *)

(** The calls of a trace that are ticks of the aggregation interval. *)
Definition isAggregate (c : Z * Call) : bool :=
  match c.2 with
  | CallAggregate _ => true
  | _ => false
  end.

(** The calls of a trace that record an event. *)
Definition recordsEvent (c : Z * Call) : bool :=
  match c.2 with
  | CallEvent _ _ _ => true
  | _ => false
  end.

(** The display name [describeMetric] stores: [o.displayName || o.name]. *)
Definition displayNameOf (o : MetricDef) : string :=
  match displayName o with
  | Some d => if String.eqb d "" then name o else d
  | None => name o
  end.

(** A trace whose clock never goes back: [t] is a reading no later
    than the first call, and each call is no earlier than the one
    before. *)
Fixpoint clockOrdered (t : Z) (trace : list (Z * Call)) : Prop :=
  match trace with
  | [] => True
  | c :: trace' => t ≤ c.1 ∧ clockOrdered c.1 trace'
  end.

(** The reading of the last call of a trace ([t] for the empty one). *)
Definition lastClock (t : Z) (trace : list (Z * Call)) : Z :=
  foldl (λ _ c, c.1) t trace.

(** Events in the order of their timestamps. *)
Definition byTimestamp (a b : Event) : Prop := ts a ≤ ts b.

(** The event sequences as a clock that never goes back leaves them at
    reading [t]: no event is stamped after [t] and every sequence is in
    timestamp order. *)
Definition paced (s : Metrics) (t : Z) : Prop :=
  (∀ name evs ev, _events s !! name = Some evs → ev ∈ evs → ts ev ≤ t)
  ∧ (∀ name evs, _events s !! name = Some evs → StronglySorted byTimestamp evs).

(** Moreover the cursor, once set, is at most [t] and at most the
    timestamp of every pending event. *)
Definition timely (s : Metrics) (t : Z) : Prop :=
  paced s t
  ∧ (∀ c, _nextPeriodBeginning s = Some c →
          c ≤ t ∧ ∀ name evs ev, _events s !! name = Some evs → ev ∈ evs →
                                 c ≤ ts ev).

(** The number an entry reports (0 for an absent entry). *)
Definition numberOf (e : option Entry) : Z :=
  match e with
  | Some (mkEntry _ (VNumber z) _) => z
  | _ => 0
  end.


Definition pending (s : Metrics) (n : string) : Z :=
  sum (map v (default [] (_events s !! n))).

Definition recordedBy (n : string) (c : Z * Call) : Z :=
  match c.2 with
  | CallEvent n' value _ => if decide (n' = n) then value else 0
  | _ => 0
  end.

Definition recorded (n : string) (trace : list (Z * Call)) : Z :=
  sum (map (recordedBy n) trace).


(** ** Further scenarios *)

(** The watermark scenario just before its tick. *)
Definition watermarkRecorded : Metrics :=
  Eval vm_compute in
    default create
      (run (H := exactHistogram) create (removelast watermarkTrace)).

(** A run with an ordered clock: a counter declared, bumped by 5 and by
    7, a first tick, a bump by 11, a second tick. *)
Definition counterDefs : list MetricDef :=
  [mkMetricDef "requests" (Some "counter") (Some "Requests sent")].

Definition counterTrace : list (Z * Call) :=
  [ (1000, CallEvent "requests" 5 ∅);
    (1200, CallEvent "requests" 7 ∅);
    (5000, CallAggregate "p1");
    (5100, CallEvent "requests" 11 ∅);
    (5200, CallMarkStart "inflight" "r1");
    (9000, CallAggregate "p2") ].

(** A run that only declares, marks and ticks. *)
Definition marksOnlyTrace : list (Z * Call) :=
  [ (900, CallDescribeMetrics
            [mkMetricDef "inflight" (Some "watermark") None]);
    (1000, CallMarkStart "inflight" "r1");
    (2000, CallMarkEnd "inflight" "r1");
    (50000, CallAggregate "p1");
    (90000, CallAggregate "p2") ].

(** ** The console reporter *)

(** A shallow embedding of [lib/console-reporter.js].  The reporter
    writes to the terminal through [console.log] and drives an [ora]
    spinner: both are recorded as a list of outputs, in the order the
    calls are made.  An argument of [console.log] is kept as data, the
    rendering of timestamps ([moment]), of durations ([util]) and of
    styles ([chalk]) being left to those libraries.  The report handed
    to the reporter is taken to hold the fields the reporter reads. *)
Module ConsoleReporter.

#[warnings="-register-all"] Inductive Arg :=
| AStr (s : string)
| AInt (z : Z)
| ANum (q : Qc)
| ANotFinite
| AUndefined
| ATimestamp (t : Z)
| ADuration (ms : Z)
| AStyled (style : string) (content : Arg)
| ATemplate (parts : list Arg).

Inductive Out :=
| SpinnerStart
| SpinnerStop
| ConsoleLog (args : list Arg).

(** The fields of the reporter; [quiet] is [opts.quiet] as a
    condition. *)
Record Reporter := mkReporter {
  quiet : bool;
  spinnerOn : bool;
  reportScenarioLatency : bool;
  startTime : Z;
  lastWarningAt : Z;
  alreadyWarned : bool
}.

(** [new ConsoleReporter(opts)]; [now] and [now'] are the two readings
    of [Date.now()]. *)
Definition new (optsQuiet optsLatency : bool) (now now' : Z) : Reporter :=
  mkReporter optsQuiet false optsLatency now now' false.

Definition toggleSpinner (r : Reporter) : Reporter * list Out :=
  (mkReporter (quiet r) (negb (spinnerOn r)) (reportScenarioLatency r)
     (startTime r) (lastWarningAt r) (alreadyWarned r),
   [if spinnerOn r then SpinnerStop else SpinnerStart]).

Definition start (r : Reporter) : Reporter * list Out :=
  if quiet r then (r, []) else toggleSpinner r.

(** [createConsoleReporter(events, opts)]; the four subscriptions are
    [handle] below. *)
Definition createConsoleReporter (optsQuiet optsLatency : bool) (now now' : Z)
    : Reporter * list Out :=
  start (new optsQuiet optsLatency now now').

(** A phase: [name], [duration] and [think] may be missing. *)
Record Phase := mkPhase {
  index : Z;
  name : option string;
  duration : option Z;
  think : option Z
}.

Definition optArg (x : option Z) : Arg :=
  match x with
  | Some z => AInt z
  | None => AUndefined
  end.

Definition phaseStarted (r : Reporter) (now : Z) (phase : Phase)
    : Reporter * list Out :=
  if quiet r then (r, [])
  else
    let '(r1, o1) := toggleSpinner r in
    let line :=
      ConsoleLog
        [AStr "Started phase %s%s, duration: %ss @ %s";
         AInt (index phase);
         match name phase with
         | Some n => if String.eqb n "" then AStr ""
                     else AStr (" (" ++ n ++ ")")%string
         | None => AStr ""
         end;
         match duration phase with
         | Some d => if d =? 0 then optArg (think phase) else AInt d
         | None => optArg (think phase)
         end;
         ATimestamp now] in
    let '(r2, o2) := toggleSpinner r1 in
    (r2, o1 ++ [line] ++ o2)%list.

(** The five numbers of a latency summary. *)
Record Latency := mkLatency {
  min : Arg;
  max : Arg;
  median : Arg;
  p95 : Arg;
  p99 : Arg
}.

(** The report, [data.report()].  Objects that are iterated are lists
    of pairs in key order. *)
Record Report := mkReport {
  startedAt : Z;
  timestamp : Z;
  reportingPeriodSec : Arg;
  scenariosCreated : Z;
  scenariosCompleted : Arg;
  scenarioDuration : Latency;
  scenarioCounts : option (list (string * Z));
  codes : list (string * Z);
  errors : list (string * Z);
  customStats : list (string * Latency);
  counters : list (string * Arg);
  meters : list (string * Arg)
}.

Definition humanizeMetricName (name : string) : string := name.

(** [Math.round(count / report.scenariosCreated * 100 * 1000) / 1000];
    with no scenario created the quotient is not a finite number. *)
Definition percentage (count created : Z) : Arg :=
  if created =? 0 then ANotFinite
  else ANum (Z2Qc (Math_round (Z2Qc count / Z2Qc created * Z2Qc 100 * Z2Qc 1000))
             / Z2Qc 1000)%Qc.

Definition latencyLines (l : Latency) : list Out :=
  [ConsoleLog [AStr "    min: %s"; min l];
   ConsoleLog [AStr "    max: %s"; max l];
   ConsoleLog [AStr "    median: %s"; median l];
   ConsoleLog [AStr "    p95: %s"; p95 l];
   ConsoleLog [AStr "    p99: %s"; p99 l]].

(** [printReport(report, opts)], with [opts.showScenarioCounts] as a
    flag. *)
Definition printReport (r : Reporter) (report : Report)
    (showScenarioCounts : bool) : list Out :=
  ([ConsoleLog [AStr "  scenarios.launched:  %s"; AInt (scenariosCreated report)];
    ConsoleLog [AStr "  scenarios.completed: %s"; scenariosCompleted report]]
   ++ (if reportScenarioLatency r
       then ConsoleLog [AStr "  scenario.duration (ms):"]
            :: latencyLines (scenarioDuration report)
       else [])
   ++ (match showScenarioCounts, scenarioCounts report with
       | true, Some counts =>
           [ConsoleLog [AStr "  scenario.counts:"]]
           ++ map (λ '(name, count),
                     ConsoleLog [AStr "    %s: %s (%s%)"; AStr name; AInt count;
                                 percentage count (scenariosCreated report)])
                counts
           ++ [ConsoleLog [AStr "  duration.total (sec): %s";
                           reportingPeriodSec report]]
       | _, _ => []
       end)
   ++ (if bool_decide (length (codes report) ≠ 0%nat)
       then ConsoleLog [AStr "  Codes:"]
            :: map (λ '(code, count),
                      ConsoleLog [AStr "    %s: %s"; AStr code; AInt count])
                 (codes report)
       else [])
   ++ (if bool_decide (length (errors report) ≠ 0%nat)
       then ConsoleLog [AStr "  Errors:"]
            :: map (λ '(code, count),
                      ConsoleLog [AStr "    %s: %s"; AStr code; AInt count])
                 (errors report)
       else [])
   ++ (if bool_decide (0 < length (customStats report))%nat
          || bool_decide (0 < length (counters report))%nat
       then
         concat (map (λ '(n, l),
                        ConsoleLog [AStr "  %s: (ms)"; AStr (humanizeMetricName n)]
                        :: latencyLines l)
                   (customStats report))
         ++ map (λ '(name, value),
                   ConsoleLog [AStr "  %s: %s"; AStr (humanizeMetricName name); value])
              (counters report)
         ++ map (λ '(name, value),
                   ConsoleLog [ATemplate [AStr "  "; AStr (humanizeMetricName name);
                                          AStr ": "; value]])
              (meters report)
       else [])
   ++ [ConsoleLog []])%list.

Definition stats (r : Reporter) (now : Z) (report : Report)
    : Reporter * list Out :=
  if quiet r then (r, [])
  else
    let '(r1, o1) := toggleSpinner r in
    let lines :=
      ([ConsoleLog [AStr "Report @ %s (%s)"; ATimestamp (startedAt report);
                    reportingPeriodSec report];
        ConsoleLog [ATemplate [AStr "Elapsed time: ";
                               ADuration (now - startTime r1)]]]
       ++ printReport r1 report false)%list in
    let '(r2, o2) := toggleSpinner r1 in
    (r2, o1 ++ lines ++ o2)%list.

(** The two texts of the CPU warning, with the pids joined by commas. *)
Definition firstWarningHead : string := "
CPU usage of Artillery seems to be very high (pids: ".

Definition firstWarning (busyPids : list string) : Arg :=
  ATemplate
    [AStr firstWarningHead;
     AStr (String.concat "," busyPids);
     AStr ")
which may severely affect its performance.
See https://artillery.io/docs/faq/#high-cpu-warnings for details.
"].

Definition laterWarning (busyPids : list string) : Arg :=
  ATemplate
    [AStr "High CPU usage warning (pids: ";
     AStr (String.concat "," busyPids);
     AStr ").
See https://artillery.io/docs/faq/#high-cpu-warnings for details.
"].

Definition warningLabel : Arg := AStyled "black.bgYellow.bold" (AStr "Warning:").

(** [highcpu(busyPids)]; [disabled] is the environment variable
    [ARTILLERY_DISABLE_CPU_MONITORING] as a condition, [now] the
    reading of [Date.now()] in the test and [now'] the one stored. *)
Definition highcpu (disabled : bool) (r : Reporter) (now now' : Z)
    (busyPids : list string) : Reporter * list Out :=
  if disabled then (r, [])
  else if 10 * 1000 <? now - lastWarningAt r then
    let '(r1, o1) := toggleSpinner r in
    let line :=
      if alreadyWarned r1
      then ConsoleLog [warningLabel; AStyled "yellow" (laterWarning busyPids)]
      else ConsoleLog [warningLabel; AStyled "yellow" (firstWarning busyPids)] in
    let r2 :=
      mkReporter (quiet r1) (spinnerOn r1) (reportScenarioLatency r1)
        (startTime r1) now' true in
    let '(r3, o3) := toggleSpinner r2 in
    (r3, o1 ++ [line] ++ o3)%list
  else (r, []).

Definition done (r : Reporter) (report : Report) : Reporter * list Out :=
  if quiet r then (r, [])
  else
    let '(r1, o1) := toggleSpinner r in
    (r1,
     o1
     ++ [ConsoleLog [AStr "All virtual users done
"];
         ConsoleLog [AStr "Summary report @ %s"; ATimestamp (timestamp report)]]
     ++ printReport r1 report true)%list.

(** The four events the reporter subscribes to. *)
Inductive Ev :=
| EvPhaseStarted (now : Z) (phase : Phase)
| EvStats (now : Z) (report : Report)
| EvHighCpu (now now' : Z) (busyPids : list string)
| EvDone (report : Report).

Definition handle (disabled : bool) (r : Reporter) (e : Ev)
    : Reporter * list Out :=
  match e with
  | EvPhaseStarted now phase => phaseStarted r now phase
  | EvStats now report => stats r now report
  | EvHighCpu now now' busyPids => highcpu disabled r now now' busyPids
  | EvDone report => done r report
  end.

(** A sequence of events, with everything written on the way. *)
Fixpoint handleAll (disabled : bool) (r : Reporter) (es : list Ev)
    : Reporter * list Out :=
  match es with
  | [] => (r, [])
  | e :: es' =>
      let '(r1, o1) := handle disabled r e in
      let '(r2, o2) := handleAll disabled r1 es' in
      (r2, (o1 ++ o2)%list)
  end.

(** The state of the spinner after a list of outputs, and whether every
    line was written while the spinner stood still. *)
Fixpoint spinningAfter (spinning : bool) (outs : list Out) : bool :=
  match outs with
  | [] => spinning
  | SpinnerStart :: outs' => spinningAfter true outs'
  | SpinnerStop :: outs' => spinningAfter false outs'
  | ConsoleLog _ :: outs' => spinningAfter spinning outs'
  end.

Fixpoint logsWhileStopped (spinning : bool) (outs : list Out) : bool :=
  match outs with
  | [] => true
  | SpinnerStart :: outs' => logsWhileStopped true outs'
  | SpinnerStop :: outs' => logsWhileStopped false outs'
  | ConsoleLog _ :: outs' => negb spinning && logsWhileStopped spinning outs'
  end.

Definition isDone (e : Ev) : bool :=
  match e with
  | EvDone _ => true
  | _ => false
  end.

Definition isHighCpu (e : Ev) : bool :=
  match e with
  | EvHighCpu _ _ _ => true
  | _ => false
  end.

(** The first, long warning among the outputs. *)
Definition isFirstWarning (o : Out) : bool :=
  match o with
  | ConsoleLog [AStyled _ (AStr _); AStyled _ (ATemplate (AStr head :: _))] =>
      String.eqb head firstWarningHead
  | _ => false
  end.

(** Outputs that are all lines. *)
Definition onlyLogs (outs : list Out) : Prop :=
  Forall (λ o, ∃ args, o = ConsoleLog args) outs.

(** The report with other meters. *)
Definition withMeters (m : list (string * Arg)) (report : Report) : Report :=
  mkReport (startedAt report) (timestamp report) (reportingPeriodSec report)
    (scenariosCreated report) (scenariosCompleted report)
    (scenarioDuration report) (scenarioCounts report) (codes report)
    (errors report) (customStats report) (counters report) m.

(** A scenario: a report with one custom stat and two meters, a phase,
    and a run of events ending before [done]. *)
Definition sampleLatency : Latency :=
  mkLatency (AInt 12) (AInt 730) (AInt 250) (AInt 700) (AInt 730).

Definition sampleReport : Report :=
  mkReport 1000 9000 (AInt 8) 20 (AInt 18) sampleLatency
    (Some [("browse", 15); ("checkout", 5)])
    [("200", 57); ("404", 3)] []
    [("engine.http.response.time", sampleLatency)] []
    [("engine.http.response.rate", AInt 7)].

Definition metersOnlyReport : Report :=
  mkReport 1000 9000 (AInt 8) 20 (AInt 18) sampleLatency None [] [] [] []
    [("engine.http.response.rate", AInt 7)].

Definition samplePhase : Phase := mkPhase 0 (Some "warm up") (Some 60) None.

Definition sampleEvents : list Ev :=
  [EvPhaseStarted 100 samplePhase;
   EvHighCpu 5000 5001 ["4242"];
   EvStats 10000 sampleReport;
   EvHighCpu 12000 12001 ["4242"; "4243"];
   EvHighCpu 15000 15001 ["4242"];
   EvStats 20000 sampleReport;
   EvHighCpu 30000 30001 ["4243"]].

End ConsoleReporter.

(** * Properties *)

(** ** The two loops of the aggregator *)

Section Loops.
Context `{HdrHistogram}.

Lemma set_events_id s : set_events (λ _, _events s) s = s.
Proof. by destruct s. Qed.

Lemma Object_keys_NoDup {V} (o : gmap string V) : NoDup (Object_keys o).
Proof. apply NoDup_fst_map_to_list. Qed.

Lemma elem_of_Object_keys {V} (o : gmap string V) k :
  k ∈ Object_keys o ↔ is_Some (o !! k).
Proof.
  unfold Object_keys. rewrite list_elem_of_fmap. split.
  - intros [[k' x] [-> Hin]]. apply elem_of_map_to_list in Hin. eauto.
  - intros [x Hx]. exists (k, x). split; [done|]. by apply elem_of_map_to_list.
Qed.

Lemma getEventData_lookup s name a b :
  getEventData s name a b = List.filter (inWindow a b) <$> _events s !! name.
Proof. unfold getEventData. by destruct (_events s !! name). Qed.

(** The event loop over any duplicate-free list of own keys: it never
    throws, changes nothing of the instance but [_events], prunes the
    sequences of the keys it visits and writes the entries of those
    whose type it knows. *)
Lemma eventLoop_gen e l ks :
  NoDup ks → ∀ s pm,
  (∀ k, k ∈ ks → is_Some (_events s !! k)) →
  ∃ E' pm',
    forEach (aggregateEvent e l) ks (s, pm) = Some (set_events (λ _, E') s, pm')
    ∧ (∀ k, E' !! k =
            if decide (k ∈ ks)
            then List.filter (λ ev, l <? ts ev) <$> _events s !! k
            else _events s !! k)
    ∧ (∀ k, pm' !! k =
            if decide (k ∈ ks)
            then from_option Some (pm !! k)
                   (_events s !! k ≫= λ evs,
                      entryOf (_aggregationIntervalMs s) (getEventType s k)
                        (List.filter (inWindow e l) evs))
            else pm !! k).
Proof.
  induction 1 as [|k ks Hk Hnd IH]; intros s pm Hdom.
  - exists (_events s), pm. simpl. rewrite set_events_id.
    by repeat split.
  - destruct (Hdom k) as [evs Hevs]; [left|].
    set (s1 := set_events (<[k := List.filter (λ ev, l <? ts ev) evs]>) s).
    set (pm1 := match entryOf (_aggregationIntervalMs s) (getEventType s k)
                        (List.filter (inWindow e l) evs) with
                | Some en => <[k := en]> pm
                | None => pm
                end).
    destruct (IH s1 pm1) as (E' & pm' & Hrun & HE & Hpm).
    { intros j Hj. simpl. rewrite lookup_insert.
      case_decide; [eauto | apply Hdom; by right]. }
    exists E', pm'. split; [|split].
    + simpl. unfold getEventData, deleteEventData. rewrite Hevs. simpl.
      exact Hrun.
    + intros j. rewrite HE. simpl. destruct (decide (j = k)) as [->|Hne].
      * rewrite decide_False by done. rewrite decide_True by left.
        by rewrite lookup_insert_eq, Hevs.
      * rewrite lookup_insert_ne by done.
        destruct (decide (j ∈ ks)).
        -- by rewrite decide_True by (by right).
        -- rewrite decide_False; [done|]. by intros [->|?]%elem_of_cons.
    + intros j. rewrite Hpm. simpl. destruct (decide (j = k)) as [->|Hne].
      * rewrite decide_False by done. rewrite decide_True by left.
        rewrite Hevs. simpl. subst pm1.
        destruct (entryOf _ _ _); simpl; [by rewrite lookup_insert_eq|done].
      * assert (Hpm1 : pm1 !! j = pm !! j).
        { subst pm1. destruct (entryOf _ _ _); [by rewrite lookup_insert_ne|done]. }
        destruct (decide (j ∈ ks)).
        -- rewrite decide_True by (by right).
           rewrite lookup_insert_ne by done. unfold getEventType. simpl.
           by rewrite Hpm1.
        -- rewrite decide_False; [done|]. by intros [->|?]%elem_of_cons.
Qed.

Lemma filter_never {A} (f : A → bool) (l : list A) :
  (∀ x, f x = false) → List.filter f l = [].
Proof. intros Hf. induction l as [|x l IH]; simpl; [done|]. by rewrite Hf. Qed.

(** [ts] is undefined on every element, so [getTimerData] selects
    nothing, whatever the bounds. *)
Lemma getTimerData_lookup s name a b :
  getTimerData s name a b = (λ _, []) <$> _timers s !! name.
Proof.
  unfold getTimerData. destruct (_timers s !! name) as [marks|]; [|done].
  simpl. by rewrite filter_never.
Qed.

(** [sat] and [eat] are undefined on every element, so
    [deleteTimerData] keeps nothing. *)
Lemma deleteTimerData_lookup s name a b :
  deleteTimerData s name a b =
  (λ _, set_timers (<[name := []]>) s) <$> _timers s !! name.
Proof.
  unfold deleteTimerData. destruct (_timers s !! name) as [marks|]; [|done].
  simpl. rewrite filter_never by done. by destruct (_ <? _).
Qed.

Lemma set_timers_id s : set_timers (λ _, _timers s) s = s.
Proof. by destruct s. Qed.

(** The watermark loop over any duplicate-free list of own keys: it
    never throws, empties the sequences of the keys it visits and
    assigns an entry of high-water mark 0 to each of them on the
    period. *)
Lemma timerLoop_gen e l ks :
  NoDup ks → ∀ s (p : Period),
  (∀ k, k ∈ ks → is_Some (_timers s !! k)) →
  ∃ T' (p' : Period),
    forEach (aggregateTimer e l) ks (s, p) = Some (set_timers (λ _, T') s, p')
    ∧ (∀ k, T' !! k =
            if decide (k ∈ ks) then (λ _, []) <$> _timers s !! k
            else _timers s !! k)
    ∧ (∀ k, p' !! k =
            if decide (k ∈ ks) then Some (watermarkEntry 0) else p !! k).
Proof.
  induction 1 as [|k ks Hk Hnd IH]; intros s p Hdom.
  - exists (_timers s), p. simpl. rewrite set_timers_id. by repeat split.
  - destruct (Hdom k) as [marks Hmarks]; [left|].
    set (s1 := set_timers (<[k := []]>) s).
    destruct (IH s1 (<[k := watermarkEntry 0]> p)) as (T' & p' & Hrun & HT & Hp).
    { intros j Hj. simpl. rewrite lookup_insert.
      case_decide; [eauto | apply Hdom; by right]. }
    exists T', p'. split; [|split].
    + simpl. rewrite getTimerData_lookup, deleteTimerData_lookup, Hmarks.
      simpl. exact Hrun.
    + intros j. rewrite HT. simpl. destruct (decide (j = k)) as [->|Hne].
      * rewrite decide_False by done. rewrite decide_True by left.
        by rewrite lookup_insert_eq, Hmarks.
      * rewrite lookup_insert_ne by done.
        destruct (decide (j ∈ ks)).
        -- by rewrite decide_True by (by right).
        -- rewrite decide_False; [done|]. by intros [->|?]%elem_of_cons.
    + intros j. rewrite Hp. destruct (decide (j = k)) as [->|Hne].
      * rewrite decide_False by done. rewrite decide_True by left.
        by rewrite lookup_insert_eq.
      * rewrite lookup_insert_ne by done.
        destruct (decide (j ∈ ks)).
        -- by rewrite decide_True by (by right).
        -- rewrite decide_False; [done|]. by intros [->|?]%elem_of_cons.
Qed.

(** A tick that finds a closable window ends in [closedState]: in
    particular it throws nothing. *)
Lemma defaultAggregator_closes s now uuid e :
  closes s now e → defaultAggregator s now uuid = Some (closedState s e uuid).
Proof.
  intros [He Hnow]. unfold defaultAggregator. rewrite He.
  destruct (Z.ltb_spec now (e + _aggregationIntervalMs s + _aggregationLagMs s));
    [lia|].
  set (l := e + _aggregationIntervalMs s).
  set (s1 := set_nextPeriodBeginning (l + 1) s).
  destruct (eventLoop_gen e l (listEvents s1) (Object_keys_NoDup _) s1 ∅)
    as (E' & pm' & Hrun & HE & Hpm).
  { intros k Hk. by apply elem_of_Object_keys in Hk. }
  cbv zeta. rewrite Hrun. simpl.
  set (s2 := set_events (λ _, E') s1).
  destruct (timerLoop_gen e l (Object_keys (_timers s2)) (Object_keys_NoDup _) s2
              (periodLiteral uuid e l pm'))
    as (T' & p' & Hrun2 & HT & Hp).
  { intros k Hk. by apply elem_of_Object_keys in Hk. }
  change (_timers s2) with (_timers s) in Hrun2, HT, Hp.
  rewrite Hrun2. simpl. unfold closedState, set_periods. simpl. fold l.
  f_equal. f_equal.
  - apply map_eq. intros k. rewrite HE, lookup_fmap. simpl.
    case_decide as Hk; [done|].
    unfold listEvents in Hk. rewrite elem_of_Object_keys in Hk. simpl in Hk.
    destruct (_events s !! k); [|done]. exfalso. eauto.
  - apply map_eq. intros k. rewrite HT, lookup_fmap. simpl.
    case_decide as Hk; [done|].
    rewrite elem_of_Object_keys in Hk. simpl in Hk.
    destruct (_timers s !! k); [|done]. exfalso. eauto.
  - f_equal. f_equal. apply map_eq. intros k. unfold closedPeriod. fold l.
    rewrite Hp, lookup_union, lookup_fmap. simpl.
    assert (pm' = windowEntries s e l) as ->.
    { apply map_eq. intros j. rewrite Hpm. unfold windowEntries.
      rewrite map_lookup_imap, lookup_empty. simpl.
      case_decide as Hj.
      - unfold getEventType. simpl. by destruct (_ ≫= _).
      - unfold listEvents in Hj. rewrite elem_of_Object_keys in Hj. simpl in Hj.
        destruct (_events s !! j); [|done]. exfalso. eauto. }
    case_decide as Hk.
    + rewrite elem_of_Object_keys in Hk. simpl in Hk. destruct Hk as [m ->].
      simpl. by destruct (periodLiteral _ _ _ _ !! k).
    + rewrite elem_of_Object_keys in Hk. simpl in Hk.
      destruct (_timers s !! k); [exfalso; eauto|].
      simpl. by destruct (periodLiteral _ _ _ _ !! k).
Qed.

(** A tick before the lag has passed changes nothing. *)
Lemma defaultAggregator_skips s now uuid e :
  earliestOf s = Fin e →
  now < e + _aggregationIntervalMs s + _aggregationLagMs s →
  defaultAggregator s now uuid = Some s.
Proof.
  intros He Hnow. unfold defaultAggregator. rewrite He.
  by destruct (Z.ltb_spec now (e + _aggregationIntervalMs s + _aggregationLagMs s));
    [|lia].
Qed.
End Loops.

(** ** Runs: totality and invariants *)

(** Case analysis on the call of a step [Hstep : step s c = Some s']:
    one goal for each operation, with the clock reading [now] and the
    arguments of the call. *)
Ltac step_cases c Hstep :=
  destruct c as [now [defs|name value tags|name id|name id|uuid]];
  simpl in Hstep.

Section Runs.
Context `{HdrHistogram}.

Lemma defaultAggregator_cases s now uuid :
  defaultAggregator s now uuid = Some s
  ∨ ∃ e, closes s now e
         ∧ defaultAggregator s now uuid = Some (closedState s e uuid).
Proof.
  destruct (earliestOf s) as [e|] eqn:He.
  - destruct (Z.lt_ge_cases now
                (e + _aggregationIntervalMs s + _aggregationLagMs s)).
    + left. by eapply defaultAggregator_skips.
    + right. exists e. split; [done|]. by apply defaultAggregator_closes.
  - left. unfold defaultAggregator. by rewrite He.
Qed.

(** No call throws: every trace runs to a final instance. *)
Lemma step_total s c : is_Some (step s c).
Proof.
  destruct c as [now []]; simpl; eauto.
  destruct (defaultAggregator_cases s now uuid) as [->|(e & _ & ->)]; eauto.
Qed.

Lemma run_total trace : ∀ s, is_Some (run s trace).
Proof.
  induction trace as [|c trace IH]; intros s; [by eexists|].
  unfold run. simpl. destruct (step_total s c) as [s' ->]. apply IH.
Qed.

(** Induction along a run, with a condition [Q] on the calls. *)
Lemma run_invariant (P : Metrics → Prop) (Q : Z * Call → Prop) :
  (∀ s c s', Q c → P s → step s c = Some s' → P s') →
  ∀ trace s s', Forall Q trace → P s → run s trace = Some s' → P s'.
Proof.
  intros Hstep. induction trace as [|c trace IH]; intros s s' HQ HP Hrun.
  - unfold run in Hrun. simpl in Hrun. by inversion Hrun; subst.
  - unfold run in Hrun. simpl in Hrun.
    destruct (step s c) as [s1|] eqn:Hs1; [|done]. simpl in Hrun.
    apply Forall_cons in HQ as [Hc Ht].
    apply (IH s1 s'); [done| |done]. by apply (Hstep s c).
Qed.

(** A property of the instance that each declaration preserves is
    preserved by [describeMetrics]. *)
Lemma describeMetrics_invariant (P : Metrics → Prop) defs :
  (∀ s o, P s → P (describeOne s o)) → ∀ s, P s → P (describeMetrics s defs).
Proof.
  intros Hone. unfold describeMetrics.
  induction defs as [|o defs IH]; intros s HP; simpl; [done|].
  apply IH. by apply Hone.
Qed.

Lemma describeOne_events s o :
  _events (describeOne s o) =
  if bool_decide (type o = Some "watermark") then _events s
  else <[name o := []]> (_events s).
Proof. unfold describeOne. by case_bool_decide. Qed.

Lemma describeOne_timers s o :
  _timers (describeOne s o) =
  if bool_decide (type o = Some "watermark") then <[name o := []]> (_timers s)
  else _timers s.
Proof. unfold describeOne. by case_bool_decide. Qed.

Lemma describeOne_eventTypes s o :
  _eventTypes (describeOne s o) = <[name o := type o]> (_eventTypes s).
Proof. unfold describeOne. by case_bool_decide. Qed.

Lemma describeOne_frame s o :
  _aggregationIntervalMs (describeOne s o) = _aggregationIntervalMs s
  ∧ _aggregationLagMs (describeOne s o) = _aggregationLagMs s
  ∧ _periods (describeOne s o) = _periods s
  ∧ _nextPeriodBeginning (describeOne s o) = _nextPeriodBeginning s.
Proof. unfold describeOne. by case_bool_decide. Qed.

Lemma event_events s now name value tags :
  _events (event s now name value tags) =
  <[name := (default [] (_events s !! name) ++ [mkEvent now value tags])%list]>
    (_events s).
Proof.
  unfold event. destruct (_events s !! name) eqn:He; simpl; [by rewrite He|].
  by rewrite lookup_insert_eq, insert_insert_eq.
Qed.

Lemma markStart_timers s now name id :
  _timers (markStart s now name id) =
  <[name := (default [] (_timers s !! name) ++ [[StartMark now id]])%list]>
    (_timers s).
Proof.
  unfold markStart. destruct (_timers s !! name) eqn:He; simpl; rewrite ?He; simpl; [done|].
  by rewrite lookup_insert_eq, insert_insert_eq.
Qed.

Lemma markEnd_timers s now name id :
  _timers (markEnd s now name id) =
  <[name := (default [] (_timers s !! name) ++ [[EndMark now id]])%list]>
    (_timers s).
Proof.
  unfold markEnd. destruct (_timers s !! name) eqn:He; simpl; rewrite ?He; simpl; [done|].
  by rewrite lookup_insert_eq, insert_insert_eq.
Qed.



End Runs.

(** ** Windowing *)

Section Windowing.
Context `{HdrHistogram}.




(** The keys of the period literal survive the watermark loop when no
    timer sequence bears their name. *)
Lemma closedPeriod_literal s e uuid k :
  plainTimers s → k ∈ periodKeys →
  closedPeriod s e uuid !! k =
  periodLiteral uuid e (e + _aggregationIntervalMs s)
    (windowEntries s e (e + _aggregationIntervalMs s)) !! k.
Proof.
  intros Hplain Hk. unfold closedPeriod.
  by rewrite lookup_union, lookup_fmap, (Hplain k Hk), (left_id None _).
Qed.



Lemma periodMetric_closedPeriod s e uuid name :
  plainTimers s →
  periodMetric (closedPeriod s e uuid) name =
  windowEntries s e (e + _aggregationIntervalMs s) !! name.
Proof.
  intros Hplain. unfold periodMetric. rewrite closedPeriod_literal; [done..|].
  unfold periodKeys. set_solver.
Qed.




Lemma event_frame s now name value tags :
  _aggregationIntervalMs (event s now name value tags) = _aggregationIntervalMs s
  ∧ _aggregationLagMs (event s now name value tags) = _aggregationLagMs s
  ∧ _periods (event s now name value tags) = _periods s
  ∧ _nextPeriodBeginning (event s now name value tags) = _nextPeriodBeginning s.
Proof. unfold event. by destruct (_events s !! name). Qed.

Lemma markStart_frame s now name id :
  _aggregationIntervalMs (markStart s now name id) = _aggregationIntervalMs s
  ∧ _aggregationLagMs (markStart s now name id) = _aggregationLagMs s
  ∧ _events (markStart s now name id) = _events s
  ∧ _periods (markStart s now name id) = _periods s
  ∧ _nextPeriodBeginning (markStart s now name id) = _nextPeriodBeginning s.
Proof. unfold markStart. by destruct (_timers s !! name). Qed.

Lemma markEnd_frame s now name id :
  _aggregationIntervalMs (markEnd s now name id) = _aggregationIntervalMs s
  ∧ _aggregationLagMs (markEnd s now name id) = _aggregationLagMs s
  ∧ _events (markEnd s now name id) = _events s
  ∧ _periods (markEnd s now name id) = _periods s
  ∧ _nextPeriodBeginning (markEnd s now name id) = _nextPeriodBeginning s.
Proof. unfold markEnd. by destruct (_timers s !! name). Qed.

(** The configuration never changes. *)
Lemma step_config s c s' :
  step s c = Some s' →
  _aggregationIntervalMs s' = _aggregationIntervalMs s
  ∧ _aggregationLagMs s' = _aggregationLagMs s.
Proof.
  intros Hstep. step_cases c Hstep.
  - inversion Hstep; subst. clear Hstep. revert s.
    unfold describeMetrics. induction defs as [|o defs IH]; intros s; [done|].
    simpl. destruct (IH (describeOne s o)) as [-> ->].
    by destruct (describeOne_frame s o) as (-> & -> & _).
  - inversion Hstep; subst. by destruct (event_frame s now name value tags) as (-> & -> & _).
  - inversion Hstep; subst. by destruct (markStart_frame s now name id) as (-> & -> & _).
  - inversion Hstep; subst. by destruct (markEnd_frame s now name id) as (-> & -> & _).
  - by destruct (defaultAggregator_cases s now uuid) as [Hd|(e & _ & Hd)];
      rewrite Hd in Hstep; inversion Hstep; subst.
Qed.




End Windowing.

(** ** Guarantees of the aggregator: windows, lag, sums and pruning *)

Section Guarantees.
Context `{HdrHistogram}.


(** C2.  Lag safety.  A tick at which the clock has not yet reached the
    end of the window plus the lag returns the instance as it found it:
    no period is appended, no event or mark is pruned and the cursor is
    unchanged. *)
Theorem lag_safety s now uuid windowStart :
  earliestOf s = Fin windowStart →
  let windowEnd := windowStart + _aggregationIntervalMs s in
  now < windowEnd + _aggregationLagMs s →
  defaultAggregator s now uuid = Some s.
Proof. intros He windowEnd Hnow. by eapply defaultAggregator_skips. Qed.

Lemma windowEntries_lookup s e l name :
  windowEntries s e l !! name =
  _events s !! name ≫= λ evs,
    entryOf (_aggregationIntervalMs s) (getEventType s name)
      (List.filter (inWindow e l) evs).
Proof. unfold windowEntries. by rewrite map_lookup_imap. Qed.






(** C7.  Pruning.  After a closing tick for the window ending at
    [endsAt]: whatever range is queried, [getEventData] returns no event
    stamped at or before [endsAt]; every event stamped after [endsAt]
    is still in its sequence; and no timer sequence holds a mark
    stamped at or before [endsAt]. *)
Theorem closing_prunes s now uuid earliest :
  closes s now earliest →
  let endsAt := earliest + _aggregationIntervalMs s in
  ∃ s',
    defaultAggregator s now uuid = Some s'
    ∧ (∀ name gte lte stream ev,
         getEventData s' name gte lte = Some stream → ev ∈ stream →
         endsAt < ts ev)
    ∧ (∀ name evs ev,
         _events s !! name = Some evs → ev ∈ evs → endsAt < ts ev →
         ∃ evs', _events s' !! name = Some evs' ∧ ev ∈ evs')
    ∧ (∀ name marks e m,
         _timers s' !! name = Some marks → e ∈ marks → m ∈ e →
         endsAt < markStamp m).
Proof.
  intros Hc endsAt. exists (closedState s earliest uuid).
  split; [by eapply defaultAggregator_closes|]. split; [|split].
  - intros name gte lte stream ev. rewrite getEventData_lookup. simpl.
    rewrite lookup_fmap. destruct (_events s !! name) as [evs|]; [|done].
    simpl. intros [= <-] Hin.
    apply list_elem_of_In, filter_In in Hin as [Hin _].
    apply filter_In in Hin as [_ Hin]. by apply Z.ltb_lt in Hin.
  - intros name evs ev Hevs Hin Hts. simpl. rewrite lookup_fmap, Hevs. simpl.
    eexists. split; [done|]. apply list_elem_of_In, filter_In.
    split; [by apply list_elem_of_In|]. by apply Z.ltb_lt.
  - intros name marks e m. simpl. rewrite lookup_fmap.
    destruct (_timers s !! name); [|done]. simpl. intros [= <-].
    by intros ?%not_elem_of_nil.
Qed.

Lemma describeOne_keeps_events_nil s o n :
  _events s !! n = Some [] → _events (describeOne s o) !! n = Some [].
Proof.
  intros Hn. rewrite describeOne_events. case_bool_decide; [done|].
  rewrite lookup_insert. by case_decide.
Qed.

Lemma describeOne_keeps_timers_nil s o n :
  _timers s !! n = Some [] → _timers (describeOne s o) !! n = Some [].
Proof.
  intros Hn. rewrite describeOne_timers. case_bool_decide; [|done].
  rewrite lookup_insert. by case_decide.
Qed.

(** C10.  Declaring resets.  After [describeMetric] (or
    [describeMetrics]) has run over a list of definitions, each name in
    the list has an empty pending sequence, whatever was recorded for
    it before: the event sequence when its declared type is not
    [watermark], the timer sequence when it is. *)
Theorem declaring_resets_pending s defs o :
  o ∈ defs →
  (type o ≠ Some "watermark" →
   _events (describeMetrics s defs) !! name o = Some [])
  ∧ (type o = Some "watermark" →
     _timers (describeMetrics s defs) !! name o = Some []).
Proof.
  unfold describeMetrics. revert s.
  induction defs as [|o' defs IH]; intros s Hin; [by apply not_elem_of_nil in Hin|].
  simpl. apply elem_of_cons in Hin as [->|Hin]; [|by apply IH].
  split; intros Hty.
  - apply (describeMetrics_invariant (λ s0, _events s0 !! name o' = Some [])).
    + intros. by apply describeOne_keeps_events_nil.
    + rewrite describeOne_events, bool_decide_eq_false_2 by done.
      apply lookup_insert_eq.
  - apply (describeMetrics_invariant (λ s0, _timers s0 !! name o' = Some [])).
    + intros. by apply describeOne_keeps_timers_nil.
    + rewrite describeOne_timers, bool_decide_eq_true_2 by done.
      apply lookup_insert_eq.
Qed.

End Guarantees.

(** ** The scenarios, evaluated *)



Lemma basicState_plainTimers : plainTimers basicState.
Proof.
  intros k Hk. unfold periodKeys in Hk.
  repeat (apply elem_of_cons in Hk as [->|Hk]); try (vm_compute; reflexivity).
  all: by apply not_elem_of_nil in Hk.
Defined.

Lemma basicState_closes : closes basicState 5000 1000.
Proof. split; [vm_compute; reflexivity | vm_compute; discriminate]. Defined.

(** What the first test asserts of its period: the request count is
    3, the declared counter that saw no event is 0, the meter is
    positive (two ticks over two seconds). *)
Example basic_test_period :
  periodMetric onePeriodResult "engine.http.request.count"
  = Some (mkEntry "counter" (VNumber 3) None)
  ∧ periodMetric onePeriodResult "engine.http.response.code.200"
    = Some (mkEntry "counter" (VNumber 0) None)
  ∧ periodMetric onePeriodResult "engine.http.response.rate"
    = Some (mkEntry "meter" (VRate (Z2Qc 1)) (Some "second")).
Proof.
  repeat split; try (vm_compute; reflexivity).
  vm_compute. do 3 f_equal. by apply Qc_is_canon.
Qed.

(** The two windows of the continued test: [1000, 3000] and
    [3001, 5001]. *)
Example twoPeriods_windows :
  (s ← run (H := exactHistogram) (new testOpts) twoPeriodsTrace;
   Some (map (λ p, (startsAt p, endsAt p)) (_periods s)))
  = Some [(Some 1000, Some 3000); (Some 3001, Some 5001)].
Proof. vm_compute. reflexivity. Qed.


Lemma lag_safety_witness :
  defaultAggregator (H := exactHistogram) basicState 4999 "5f0c" = Some basicState.
Proof.
  apply (lag_safety (H := exactHistogram) basicState 4999 "5f0c" 1000);
    vm_compute; reflexivity.
Defined.



Lemma closing_prunes_witness :
  ∃ s',
    defaultAggregator (H := exactHistogram) basicState 5000 "5f0c" = Some s'
    ∧ ∀ name gte lte stream ev,
        getEventData s' name gte lte = Some stream → ev ∈ stream → 3000 < ts ev.
Proof.
  destruct (closing_prunes (H := exactHistogram) basicState 5000 "5f0c" 1000
              basicState_closes) as (s' & Hrun & Hq & _).
  exists s'. split; [exact Hrun|]. exact Hq.
Defined.

(** Declaring the request counter again, after the test has recorded
    two events for it, leaves its sequence empty. *)
Lemma declaring_resets_pending_witness :
  _events basicState !! "engine.http.request.count"
  = Some [mkEvent 1000 1 ∅; mkEvent 1000 2 ∅]
  ∧ _events (describeMetric basicState "engine.http.request.count" (Some "counter"))
      !! "engine.http.request.count" = Some [].
Proof.
  split; [vm_compute; reflexivity|].
  apply (declaring_resets_pending basicState
           [mkMetricDef "engine.http.request.count" (Some "counter") None]
           (mkMetricDef "engine.http.request.count" (Some "counter") None)).
  - apply list_elem_of_singleton. reflexivity.
  - discriminate.
Defined.

(** ** Where the code departs from its documentation *)

(** Every timer sequence is reported with high-water mark 0, as a key
    of the period itself: the elements [markStart] and [markEnd] push
    are Arrays, on which [ts], [sat] and [eat] are undefined, so
    [getTimerData] selects nothing and the scan has nothing to count. *)
Lemma closedPeriod_watermark `{HdrHistogram} s e uuid name :
  is_Some (_timers s !! name) →
  closedPeriod s e uuid !! name = Some (watermarkEntry 0).
Proof.
  intros [marks Hm]. unfold closedPeriod.
  rewrite lookup_union, lookup_fmap, Hm. simpl.
  by destruct (periodLiteral _ _ _ _ !! name).
Qed.

(** No entry of [period.metrics] has type [watermark]: the event loop
    writes entries of the three other types only. *)
Lemma windowEntries_never_watermark `{HdrHistogram} s e l name en :
  windowEntries s e l !! name = Some en → etype en ≠ "watermark".
Proof.
  rewrite windowEntries_lookup. destruct (_events s !! name) as [evs|]; [|done].
  simpl. unfold entryOf. repeat case_bool_decide; by intros [= <-].
Qed.

(** A name without a declared type gets no entry in [period.metrics],
    whatever was recorded for it. *)
Lemma windowEntries_undeclared `{HdrHistogram} s e l name :
  getEventType s name = None → windowEntries s e l !! name = None.
Proof.
  intros Hty. rewrite windowEntries_lookup, Hty.
  by destruct (_events s !! name).
Qed.

(** C5.  Watermarks.  With starts at 1000, 2000 and 3000 and stops at
    2500, 4000 and 5000 in one window, the scan the specification
    describes peaks at 2, and the period the aggregator produces
    reports 0 for the metric. *)
Theorem watermark_scenario_reports_zero :
  spec_highWaterMark [1000; 2000; 3000] [2500; 4000; 5000] = 2
  ∧ run (H := exactHistogram) create watermarkTrace = Some watermarkFinal
  ∧ _periods watermarkFinal = [watermarkPeriod]
  ∧ startsAt watermarkPeriod = Some 1000
  ∧ endsAt watermarkPeriod = Some 11000
  ∧ watermarkPeriod !! "engine.http.request.concurrency"
    = Some (watermarkEntry 0).
Proof. repeat split; vm_compute; reflexivity. Qed.

(** C6.  Where the watermark entry is stored.  In the same scenario
    the entry of the watermark is a key of the period object, next to
    [id] and [metrics]; [period.metrics] holds the counter and has no
    entry under the name of the watermark. *)
Theorem watermark_scenario_outside_metrics :
  run (H := exactHistogram) create watermarkTrace = Some watermarkFinal
  ∧ _periods watermarkFinal = [watermarkPeriod]
  ∧ periodMetric watermarkPeriod "engine.http.request.concurrency" = None
  ∧ watermarkPeriod !! "engine.http.request.concurrency"
    = Some (watermarkEntry 0)
  ∧ periodMetric watermarkPeriod "engine.http.request.count"
    = Some (mkEntry "counter" (VNumber 1) None).
Proof. repeat split; vm_compute; reflexivity. Qed.

(** C8.  Undeclared names.  Two events recorded under a name that was
    never declared are stored, in a sequence created on the first call;
    the tick that closes their window produces a period with no entry
    for the name, and removes the events. *)
Theorem undeclared_scenario_unreported :
  run (H := exactHistogram) create undeclaredTrace = Some undeclaredRecorded
  ∧ _events undeclaredRecorded !! "errors.ETIMEDOUT"
    = Some [mkEvent 1000 1 ∅; mkEvent 1500 2 ∅]
  ∧ getEventType undeclaredRecorded "errors.ETIMEDOUT" = None
  ∧ defaultAggregator (H := exactHistogram) undeclaredRecorded 21000 "e5f6"
    = Some undeclaredFinal
  ∧ _periods undeclaredFinal = [undeclaredPeriod]
  ∧ startsAt undeclaredPeriod = Some 1000
  ∧ endsAt undeclaredPeriod = Some 11000
  ∧ periodMetric undeclaredPeriod "errors.ETIMEDOUT" = None
  ∧ _events undeclaredFinal !! "errors.ETIMEDOUT" = Some [].
Proof. repeat split; vm_compute; reflexivity. Qed.

(** C9.  The last period.  Once the test scenario has produced its
    period, [getPeriod] finds it by its id, while [getLastPeriod] hands
    its callback the empty object, which is not the period stored
    last. *)
Theorem getLastPeriod_scenario_empty :
  run (H := exactHistogram) (new testOpts) onePeriodTrace = Some onePeriodFinal
  ∧ last (_periods onePeriodFinal) = Some onePeriodResult
  ∧ getPeriod onePeriodFinal "5f0c" = Some onePeriodResult
  ∧ getLastPeriod onePeriodFinal = ∅
  ∧ getLastPeriod onePeriodFinal ≠ onePeriodResult.
Proof.
  do 4 (split; [vm_compute; reflexivity|]).
  intros Heq.
  assert (onePeriodResult !! "id" = Some (PString "5f0c")) as Hid
    by (vm_compute; reflexivity).
  rewrite <- Heq in Hid. unfold getLastPeriod in Hid.
  by rewrite lookup_empty in Hid.
Qed.

(** * Further properties of the store *)

(** ** The earliest pending timestamp *)

Lemma Math_min_fold_Infinity (l : list Num) (acc : Num) :
  foldl Math_min acc l = Infinity ↔ acc = Infinity ∧ Forall (λ n, n = Infinity) l.
Proof.
  revert acc. induction l as [|n l IH]; intros acc; simpl.
  - split; [intros ->; by split|by intros [-> _]].
  - rewrite IH, Forall_cons.
    destruct acc, n; simpl; intuition (try discriminate; try congruence).
Qed.

Lemma Math_min_fold_Fin (l : list Num) (acc : Num) e :
  foldl Math_min acc l = Fin e →
  (acc = Fin e ∨ Fin e ∈ l)
  ∧ (∀ x, acc = Fin x → e ≤ x) ∧ (∀ x, Fin x ∈ l → e ≤ x).
Proof.
  revert acc. induction l as [|n l IH]; intros acc; simpl.
  - intros ->. split; [by left|]. split; [by intros x [= ->]|].
    by intros x ?%not_elem_of_nil.
  - intros (Hin & Hacc & Hl)%IH. split; [|split].
    + destruct Hin as [Hm|Hin]; [|right; by right].
      destruct acc as [a|], n as [b|]; simpl in Hm; try done.
      * inversion Hm. destruct (Z.min_spec a b) as [[_ ->]|[_ ->]];
          [by left|right; left].
      * by left.
      * right. rewrite Hm. left.
    + intros x ->. destruct n as [b|]; simpl in Hacc.
      * specialize (Hacc _ eq_refl). lia.
      * by apply Hacc.
    + intros x [[= <-]|Hx]%elem_of_cons; [|by apply Hl].
      destruct acc as [a|]; simpl in Hacc.
      * specialize (Hacc _ eq_refl). lia.
      * by apply Hacc.
Qed.

(** X1.  [getEarliestEventTimestamp] returns [Infinity] exactly when
    every event sequence is empty; otherwise it returns the timestamp
    of the first element of some sequence, and no first element of any
    sequence is earlier.  Timer sequences play no part. *)
Theorem earliest_is_least_head s :
  match getEarliestEventTimestamp s with
  | Infinity => ∀ name evs, _events s !! name = Some evs → evs = []
  | Fin e =>
      (∃ name ev evs, _events s !! name = Some (ev :: evs) ∧ ts ev = e)
      ∧ (∀ name ev evs, _events s !! name = Some (ev :: evs) → e ≤ ts ev)
  end.
Proof.
  unfold getEarliestEventTimestamp.
  set (head := λ e : string, match _events s !! e with
                             | Some (ev :: _) => Fin (ts ev)
                             | _ => Infinity
                             end).
  assert (Hmem : ∀ x, Fin x ∈ map head (Object_keys (_events s)) ↔
                      ∃ name ev evs, _events s !! name = Some (ev :: evs)
                                     ∧ ts ev = x).
  { intros x. rewrite list_elem_of_fmap. split.
    - intros (k & Hk & _). unfold head in Hk.
      destruct (_events s !! k) as [[|ev evs]|] eqn:Hlk; try done.
      inversion Hk. eauto.
    - intros (k & ev & evs & Hlk & <-). exists k. split.
      + unfold head. by rewrite Hlk.
      + apply elem_of_Object_keys. eauto. }
  destruct (foldl Math_min Infinity _) as [e|] eqn:Hfold.
  - apply Math_min_fold_Fin in Hfold as ([|Hin] & _ & Hle); [done|].
    split; [by apply Hmem|]. intros k ev evs Hlk. apply Hle, Hmem. eauto.
  - apply Math_min_fold_Infinity in Hfold as [_ Hall].
    intros k [|ev evs] Hlk; [done|]. exfalso.
    rewrite Forall_forall in Hall.
    assert (Fin (ts ev) = Infinity); [|done].
    apply Hall, Hmem. eauto.
Qed.

(** ** Queries and pruning *)


Lemma filter_filter_bool {A} (f g : A → bool) (l : list A) :
  List.filter f (List.filter g l) = List.filter (λ x, g x && f x) l.
Proof.
  induction l as [|x l IH]; simpl; [done|].
  destruct (g x); simpl; [|done]. destruct (f x); by rewrite IH.
Qed.

(** X3.  Pruning and then querying.  After [deleteEventData(name, gte,
    lte)], a query of [name] over [a, b] returns what the same query
    returned before, cut below at [lte + 1]; the [gte] handed to
    [deleteEventData] has no effect.  Both sides throw together when
    the name owns no sequence. *)
Theorem query_after_delete s name gte lte a b :
  (s' ← deleteEventData s name gte lte; getEventData s' name a b)
  = getEventData s name (Z.max a (lte + 1)) b.
Proof.
  unfold deleteEventData. rewrite getEventData_lookup.
  destruct (_events s !! name) as [evs|]; [|done]. simpl.
  rewrite getEventData_lookup. simpl. rewrite lookup_insert_eq. simpl.
  f_equal. rewrite filter_filter_bool. apply filter_ext. intros ev.
  unfold inWindow.
  destruct (Z.ltb_spec lte (ts ev)), (Z.leb_spec a (ts ev)),
    (Z.leb_spec (Z.max a (lte + 1)) (ts ev)), (Z.leb_spec (ts ev) b);
    simpl; try done; lia.
Qed.

(** X4.  Recording and then querying.  After [event(name, value,
    tags)] at clock reading [now], a query of [name] returns what it
    returned before (nothing, if the name had no sequence) followed by
    the new event when [now] is in the range; a query of any other name
    is unchanged. *)
Theorem query_after_event s now name value tags name' gte lte :
  getEventData (event s now name value tags) name' gte lte =
  if decide (name' = name) then
    Some (default [] (getEventData s name gte lte)
          ++ (if inWindow gte lte (mkEvent now value tags)
              then [mkEvent now value tags] else []))%list
  else getEventData s name' gte lte.
Proof.
  rewrite !getEventData_lookup, event_events, lookup_insert.
  case_decide as Hn; [subst name'|].
  - rewrite decide_True by done. simpl. f_equal.
    rewrite List.filter_app. simpl.
    by destruct (_events s !! name).
  - by rewrite decide_False by done.
Qed.

(** ** Declarations *)

Lemma describeOne_eventNames s o :
  _eventNames (describeOne s o) = <[name o := displayNameOf o]> (_eventNames s).
Proof. unfold describeOne. by case_bool_decide. Qed.

(** X5.  The last declaration wins.  After [describeMetric] has run
    over a list of definitions, the type and the display name of the
    name declared last are those of that definition: the display name
    given, or the name itself when none (or an empty one) is given. *)
Theorem last_declaration_wins s defs o :
  getEventType (describeMetrics s (defs ++ [o])) (name o) = type o
  ∧ getEventDisplayName (describeMetrics s (defs ++ [o])) (name o)
    = Some (displayNameOf o).
Proof.
  unfold describeMetrics, getEventType, getEventDisplayName.
  rewrite foldl_app. cbn [foldl].
  rewrite describeOne_eventTypes, describeOne_eventNames.
  by rewrite !lookup_insert_eq.
Qed.

Lemma describeMetrics_other_names s defs n :
  n ∉ map name defs →
  let s' := describeMetrics s defs in
  _events s' !! n = _events s !! n
  ∧ _timers s' !! n = _timers s !! n
  ∧ _eventTypes s' !! n = _eventTypes s !! n
  ∧ _eventNames s' !! n = _eventNames s !! n
  ∧ _periods s' = _periods s
  ∧ _nextPeriodBeginning s' = _nextPeriodBeginning s
  ∧ _aggregationIntervalMs s' = _aggregationIntervalMs s
  ∧ _aggregationLagMs s' = _aggregationLagMs s.
Proof.
  unfold describeMetrics. revert s.
  induction defs as [|o defs IH]; intros s Hn; simpl; [done|].
  apply not_elem_of_cons in Hn as [Hne Hn].
  destruct (IH (describeOne s o) Hn) as (-> & -> & -> & -> & -> & -> & -> & ->).
  destruct (describeOne_frame s o) as (-> & -> & -> & ->).
  rewrite describeOne_events, describeOne_timers, describeOne_eventTypes,
    describeOne_eventNames.
  rewrite !(lookup_insert_ne _ (name o) n) by done.
  by case_bool_decide; rewrite ?lookup_insert_ne by done.
Qed.

(** X6.  Declaring leaves other names alone.  A name that does not
    occur in the list keeps its event sequence, its timer sequence, its
    type and its display name; the periods, the cursor and the
    configuration are not touched either. *)
Theorem declaring_frames_other_names s defs n :
  n ∉ map name defs →
  let s' := describeMetrics s defs in
  _events s' !! n = _events s !! n
  ∧ _timers s' !! n = _timers s !! n
  ∧ _eventTypes s' !! n = _eventTypes s !! n
  ∧ _eventNames s' !! n = _eventNames s !! n
  ∧ _periods s' = _periods s
  ∧ _nextPeriodBeginning s' = _nextPeriodBeginning s
  ∧ _aggregationIntervalMs s' = _aggregationIntervalMs s
  ∧ _aggregationLagMs s' = _aggregationLagMs s.
Proof. apply describeMetrics_other_names. Qed.

(** ** Marks *)

(** X7.  A mark is stored and cannot be read back.  [markStart] and
    [markEnd] append one element to the timer sequence of the name
    (created if need be), and [getTimerData] on that name then returns
    the empty list whatever range is asked. *)
Theorem mark_stored_but_unreadable s now n id a b :
  (∃ marks, _timers s !! n = marks
            ∧ _timers (markStart s now n id) !! n
              = Some (default [] marks ++ [[StartMark now id]])%list)
  ∧ getTimerData (markStart s now n id) n a b = Some []
  ∧ (∃ marks, _timers s !! n = marks
              ∧ _timers (markEnd s now n id) !! n
                = Some (default [] marks ++ [[EndMark now id]])%list)
  ∧ getTimerData (markEnd s now n id) n a b = Some [].
Proof.
  rewrite !getTimerData_lookup, markStart_timers, markEnd_timers.
  rewrite !lookup_insert_eq. repeat split; eauto.
Qed.

(** ** The list of periods *)

Lemma find_app_Some {A} (f : A → bool) (l more : list A) x :
  List.find f l = Some x → List.find f (l ++ more) = Some x.
Proof. induction l as [|y l IH]; simpl; [done|]. by destruct (f y). Qed.

Lemma find_app_None {A} (f : A → bool) (l more : list A) :
  List.find f l = None → List.find f (l ++ more) = List.find f more.
Proof. induction l as [|y l IH]; simpl; [done|]. by destruct (f y). Qed.

Lemma step_periods `{HdrHistogram} s c s' :
  step s c = Some s' →
  ∃ more, _periods s' = (_periods s ++ more)%list
          ∧ (length more ≤ if isAggregate c then 1 else 0)%nat.
Proof.
  intros Hstep. step_cases c Hstep.
  - inversion Hstep; subst. exists []. rewrite app_nil_r. split; [|done].
    clear. revert s. unfold describeMetrics.
    induction defs as [|o defs IH]; intros s; simpl; [done|].
    rewrite IH. by destruct (describeOne_frame s o) as (_ & _ & -> & _).
  - inversion Hstep; subst. exists []. rewrite app_nil_r. split; [|done].
    by destruct (event_frame s now name value tags) as (_ & _ & -> & _).
  - inversion Hstep; subst. exists []. rewrite app_nil_r. split; [|done].
    by destruct (markStart_frame s now name id) as (_ & _ & _ & -> & _).
  - inversion Hstep; subst. exists []. rewrite app_nil_r. split; [|done].
    by destruct (markEnd_frame s now name id) as (_ & _ & _ & -> & _).
  - destruct (defaultAggregator_cases s now uuid) as [Hd|(e & _ & Hd)];
      rewrite Hd in Hstep; inversion Hstep; subst.
    + exists []. rewrite app_nil_r. split; [done|simpl; lia].
    + eexists. split; [reflexivity|simpl; lia].
Qed.

Lemma run_periods `{HdrHistogram} trace :
  ∀ s, ∃ s' more,
    run s trace = Some s'
    ∧ _periods s' = (_periods s ++ more)%list
    ∧ (length more ≤ length (List.filter isAggregate trace))%nat.
Proof.
  induction trace as [|c trace IH]; intros s.
  - exists s, []. by rewrite app_nil_r.
  - destruct (step_total s c) as [s1 Hs1].
    destruct (step_periods s c s1 Hs1) as (m1 & Hm1 & Hl1).
    destruct (IH s1) as (s' & m2 & Hrun & Hm2 & Hl2).
    exists s', (m1 ++ m2)%list. unfold run in *. simpl. rewrite Hs1. simpl.
    split; [done|]. split; [by rewrite Hm2, Hm1, app_assoc|].
    rewrite length_app. destruct (isAggregate c); simpl; lia.
Qed.


(** X9.  A period, once stored, is what [getPeriod] keeps returning.
    If [getPeriod(id)] finds a period, it finds the same period after
    any further calls: nothing removes or replaces a stored period,
    and a later period with the same id does not shadow it. *)
Theorem getPeriod_stable `{HdrHistogram} s trace id p :
  getPeriod s id = Some p →
  ∃ s', run s trace = Some s' ∧ getPeriod s' id = Some p.
Proof.
  intros Hfind. destruct (run_periods trace s) as (s' & more & Hrun & Hps & _).
  exists s'. split; [done|]. unfold getPeriod. rewrite Hps.
  by apply find_app_Some.
Qed.

(** X10.  [getPeriod] answers [undefined] exactly when no stored
    period carries the id. *)
Theorem getPeriod_not_found s id :
  getPeriod s id = None
  ↔ ∀ p : Period, p ∈ _periods s → p !! "id" ≠ Some (PString id).
Proof.
  unfold getPeriod. split.
  - intros Hnone p Hp%list_elem_of_In Hid.
    apply (find_none _ _ Hnone) in Hp. by rewrite bool_decide_eq_true_2 in Hp.
  - intros Hall. destruct (List.find _ _) as [p|] eqn:Hfind; [|done].
    apply find_some in Hfind as [Hp%list_elem_of_In Hid].
    apply bool_decide_eq_true in Hid. by destruct (Hall p Hp).
Qed.

(** X11.  A closing tick and the queries.  When a tick closes a window
    under an id no stored period carries (and no timer sequence is
    named like a key of the period literal), [getPeriod] of that id
    returns the period just appended and [listPeriods] is the former
    list followed by the id. *)
Theorem closing_tick_is_queryable `{HdrHistogram} s now uuid earliest :
  closes s now earliest → plainTimers s →
  getPeriod s uuid = None →
  ∃ s' p,
    defaultAggregator s now uuid = Some s'
    ∧ _periods s' = (_periods s ++ [p])%list
    ∧ getPeriod s' uuid = Some p
    ∧ listPeriods s' = (listPeriods s ++ [Some (PString uuid)])%list.
Proof.
  intros Hc Hplain Hfresh.
  exists (closedState s earliest uuid), (closedPeriod s earliest uuid).
  assert (closedPeriod s earliest uuid !! "id" = Some (PString uuid)) as Hid.
  { rewrite closedPeriod_literal; [done..|]. unfold periodKeys. set_solver. }
  split; [by apply defaultAggregator_closes|]. split; [done|]. split.
  - unfold getPeriod in *. simpl. rewrite find_app_None by done. simpl.
    by rewrite bool_decide_eq_true_2.
  - unfold listPeriods. simpl. by rewrite map_app; simpl; rewrite Hid.
Qed.

(** ** What drives a tick *)


Lemma getEarliestEventTimestamp_empty s :
  (∀ name evs, _events s !! name = Some evs → evs = []) →
  getEarliestEventTimestamp s = Infinity.
Proof.
  intros Hall. unfold getEarliestEventTimestamp.
  apply Math_min_fold_Infinity. split; [done|].
  apply Forall_fmap, Forall_forall. intros k _. simpl.
  destruct (_events s !! k) as [[|ev evs]|] eqn:Hk; try done.
  by specialize (Hall _ _ Hk).
Qed.

(** X13.  Marks alone never produce a period.  In a run that declares,
    marks and ticks but records no event, every tick is a no-op: the
    earliest timestamp is taken from the event sequences only, so no
    period is ever produced and the cursor stays unset, however late
    the ticks come. *)
Theorem no_event_no_period `{HdrHistogram} opts trace :
  Forall (λ c, recordsEvent c = false) trace →
  ∃ s, run (new opts) trace = Some s
       ∧ _periods s = [] ∧ _nextPeriodBeginning s = None.
Proof.
  intros Hquiet. destruct (run_total trace (new opts)) as [s Hrun].
  exists s. split; [done|].
  pose (P := λ s0, (∀ name evs, _events s0 !! name = Some evs → evs = [])
                   ∧ _periods s0 = [] ∧ _nextPeriodBeginning s0 = None).
  assert (P s) as (_ & ? & ?); [|done].
  eapply (run_invariant P (λ c, recordsEvent c = false));
    [|exact Hquiet| |exact Hrun].
  - intros s0 c s1 Hc (Hev & Hps & Hcur) Hstep. step_cases c Hstep.
    + inversion Hstep; subst. clear Hstep Hc. revert s0 Hev Hps Hcur.
      unfold describeMetrics.
      induction defs as [|o defs IH]; intros s0 Hev Hps Hcur; simpl; [done|].
      destruct (describeOne_frame s0 o) as (_ & _ & Hp & Hc).
      apply IH; [|by rewrite Hp|by rewrite Hc].
      intros n evs. rewrite describeOne_events.
      case_bool_decide; [by apply Hev|].
      rewrite lookup_insert. case_decide; [by intros [= <-]|by apply Hev].
    + done.
    + inversion Hstep; subst.
      destruct (markStart_frame s0 now name id) as (_ & _ & He & Hp & Hcu).
      unfold P. by rewrite He, Hp, Hcu.
    + inversion Hstep; subst.
      destruct (markEnd_frame s0 now name id) as (_ & _ & He & Hp & Hcu).
      unfold P. by rewrite He, Hp, Hcu.
    + assert (defaultAggregator s0 now uuid = Some s0) as Hd.
      { unfold defaultAggregator, earliestOf.
        by rewrite Hcur, getEarliestEventTimestamp_empty. }
      rewrite Hd in Hstep. by inversion Hstep; subst.
  - split; [|done]. intros n evs Hn. simpl in Hn. by rewrite lookup_empty in Hn.
Qed.

(** X14.  The configuration is fixed at construction and never zero.
    Along any run the interval and the lag stay what the constructor
    computed, the option in seconds (10 when missing or 0) times 1000;
    neither is 0, so the rate of a meter never divides by zero. *)
Theorem configuration_fixed `{HdrHistogram} opts trace :
  ∃ s, run (new opts) trace = Some s
       ∧ _aggregationIntervalMs s = or_default (aggregationInterval opts) 10 * 1000
       ∧ _aggregationLagMs s = or_default (aggregationLag opts) 10 * 1000
       ∧ _aggregationIntervalMs s ≠ 0 ∧ _aggregationLagMs s ≠ 0.
Proof.
  destruct (run_total trace (new opts)) as [s Hrun]. exists s. split; [done|].
  assert (_aggregationIntervalMs s = _aggregationIntervalMs (new opts)
          ∧ _aggregationLagMs s = _aggregationLagMs (new opts)) as [-> ->].
  { eapply (run_invariant
              (λ s0, _aggregationIntervalMs s0 = _aggregationIntervalMs (new opts)
                     ∧ _aggregationLagMs s0 = _aggregationLagMs (new opts))
              (λ _, True)); [|by apply Forall_true|done|exact Hrun].
    intros s0 c s1 _ [<- <-] Hstep. by apply step_config in Hstep. }
  simpl. repeat split; unfold or_default.
  - destruct (aggregationInterval opts) as [n|]; [|lia].
    destruct (Z.eqb_spec n 0); lia.
  - destruct (aggregationLag opts) as [n|]; [|lia].
    destruct (Z.eqb_spec n 0); lia.
Qed.

(** ** What a period holds *)

(** X15.  Every timer sequence is reported as 0 and emptied.  Whatever
    marks were recorded, a closing tick puts under the name of each
    timer sequence, as a key of the period, an entry of type
    [watermark] and value 0, and leaves the sequence empty. *)
Theorem watermark_always_zero `{HdrHistogram} s now uuid earliest n :
  closes s now earliest → is_Some (_timers s !! n) →
  ∃ s' p,
    defaultAggregator s now uuid = Some s'
    ∧ _periods s' = (_periods s ++ [p])%list
    ∧ p !! n = Some (watermarkEntry 0)
    ∧ _timers s' !! n = Some [].
Proof.
  intros Hc [marks Hn].
  exists (closedState s earliest uuid), (closedPeriod s earliest uuid).
  split; [by apply defaultAggregator_closes|]. split; [done|]. split.
  - apply closedPeriod_watermark. eauto.
  - simpl. by rewrite lookup_fmap, Hn.
Qed.

Lemma entryOf_Some `{HdrHistogram} intervalMs ty stream en :
  entryOf intervalMs ty stream = Some en → ty = Some (etype en).
Proof.
  unfold entryOf. repeat case_bool_decide; try done; by intros [= <-].
Qed.

Lemma entryOf_is_Some `{HdrHistogram} intervalMs ty stream :
  is_Some (entryOf intervalMs ty stream)
  ↔ ty = Some "counter" ∨ ty = Some "meter" ∨ ty = Some "histogram".
Proof.
  unfold entryOf. repeat case_bool_decide; split; eauto.
  - by intros [].
  - intros [?|[?|?]]; done.
Qed.

(** X16.  What [period.metrics] holds.  After a closing tick (no timer
    sequence being named like a key of the period literal),
    [period.metrics] has an entry for a name exactly when the name owns
    an event sequence and its declared type is [counter], [meter] or
    [histogram]; the type written in the entry is the declared type.
    Names of any other type, or of none, have no entry. *)
Theorem metrics_entries_follow_declared_types `{HdrHistogram} s now uuid earliest :
  closes s now earliest → plainTimers s →
  ∃ s' p,
    defaultAggregator s now uuid = Some s'
    ∧ _periods s' = (_periods s ++ [p])%list
    ∧ ∀ n,
        (is_Some (periodMetric p n)
         ↔ is_Some (_events s !! n)
           ∧ (getEventType s n = Some "counter"
              ∨ getEventType s n = Some "meter"
              ∨ getEventType s n = Some "histogram"))
        ∧ (∀ en, periodMetric p n = Some en → getEventType s n = Some (etype en)).
Proof.
  intros Hc Hplain.
  exists (closedState s earliest uuid), (closedPeriod s earliest uuid).
  split; [by apply defaultAggregator_closes|]. split; [done|]. intros n.
  rewrite periodMetric_closedPeriod, windowEntries_lookup by done.
  destruct (_events s !! n) as [evs|]; simpl.
  - rewrite entryOf_is_Some. split; [|by apply entryOf_Some].
    split; [by split; eauto|by intros [_ ?]].
  - split; [|done]. split; [by intros []|by intros [[] _]].
Qed.

(** ** A clock that never goes back *)

Lemma StronglySorted_filter_bool {A} (R : relation A) (f : A → bool) l :
  StronglySorted R l → StronglySorted R (List.filter f l).
Proof.
  induction 1 as [|x l Hl IH Hx]; simpl; [apply SSorted_nil|].
  destruct (f x); [|done]. apply SSorted_cons; [done|].
  rewrite Forall_forall in *. intros y Hy%list_elem_of_In%filter_In.
  apply Hx, list_elem_of_In, Hy.
Qed.

Lemma describeMetrics_events_lookup s defs n evs :
  _events (describeMetrics s defs) !! n = Some evs →
  evs = [] ∨ _events s !! n = Some evs.
Proof.
  unfold describeMetrics. revert s.
  induction defs as [|o defs IH]; intros s; simpl; [by right|].
  intros [->|Hn]%IH; [by left|]. revert Hn. rewrite describeOne_events.
  case_bool_decide; [by right|]. rewrite lookup_insert.
  case_decide; [intros [= <-]; by left|by right].
Qed.


Lemma paced_weaken s t t' : paced s t → t ≤ t' → paced s t'.
Proof.
  intros (Hle & Hsorted) Ht. split; [|done].
  intros n evs ev Hn Hev. specialize (Hle n evs ev Hn Hev). lia.
Qed.


(** What a closing tick keeps of a sequence. *)
Lemma kept_after_closing s latest n evs ev :
  List.filter (λ ev, latest <? ts ev) <$> _events s !! n = Some evs →
  ev ∈ evs →
  ∃ old, _events s !! n = Some old ∧ ev ∈ old ∧ latest < ts ev.
Proof.
  destruct (_events s !! n) as [old|]; [|done]. simpl.
  intros [= <-] Hin%list_elem_of_In%filter_In. destruct Hin as [Hin Hts].
  exists old. split; [done|]. split; [by apply list_elem_of_In|].
  by apply Z.ltb_lt.
Qed.

Lemma paced_step `{HdrHistogram} s t c s' :
  paced s t → t ≤ c.1 → step s c = Some s' → paced s' c.1.
Proof.
  intros Ht Hnow Hstep. pose proof (paced_weaken s t c.1 Ht Hnow) as Hw.
  destruct Hw as (Hle & Hsorted). step_cases c Hstep; simpl in *.
  - inversion Hstep; subst. split.
    + intros n evs ev [->|Hn]%describeMetrics_events_lookup;
        [by intros ?%not_elem_of_nil|by apply (Hle n)].
    + intros n evs [->|Hn]%describeMetrics_events_lookup;
        [apply SSorted_nil|by apply (Hsorted n)].
  - inversion Hstep; subst. split.
    + intros n evs ev. rewrite event_events, lookup_insert.
      case_decide; [|by apply (Hle n)]. intros [= <-] [Hin|Hin]%elem_of_app.
      * destruct (_events s !! name) as [old|] eqn:Ho; simpl in Hin;
          [by apply (Hle name old)|by apply not_elem_of_nil in Hin].
      * apply list_elem_of_singleton in Hin as ->. simpl. lia.
    + intros n evs. rewrite event_events, lookup_insert.
      case_decide; [|by apply (Hsorted n)]. intros [= <-].
      apply StronglySorted_app_2;
        [| |apply SSorted_cons; [apply SSorted_nil|apply Forall_nil_2]].
      * intros a b Ha Hb. apply list_elem_of_singleton in Hb as ->.
        unfold byTimestamp. simpl.
        destruct (_events s !! name) as [old|] eqn:Ho; simpl in Ha;
          [by apply (Hle name old)|by apply not_elem_of_nil in Ha].
      * destruct (_events s !! name) as [old|] eqn:Ho; simpl;
          [by apply (Hsorted name)|apply SSorted_nil].
  - inversion Hstep; subst.
    destruct (markStart_frame s now name id) as (_ & _ & He & _).
    unfold paced. by rewrite He.
  - inversion Hstep; subst.
    destruct (markEnd_frame s now name id) as (_ & _ & He & _).
    unfold paced. by rewrite He.
  - destruct (defaultAggregator_cases s now uuid) as [Hd|(e & _ & Hd)];
      rewrite Hd in Hstep; inversion Hstep; subst; [done|].
    split; simpl.
    + intros n evs ev. rewrite lookup_fmap. intros Hn Hin.
      destruct (kept_after_closing s _ n evs ev Hn Hin) as (old & Ho & Hio & _).
      by apply (Hle n old).
    + intros n evs. rewrite lookup_fmap.
      destruct (_events s !! n) as [old|] eqn:Ho; [|done]. simpl.
      intros [= <-]. apply StronglySorted_filter_bool. by apply (Hsorted n).
Qed.



Lemma paced_run `{HdrHistogram} trace :
  ∀ s t, paced s t → clockOrdered t trace →
  ∃ s', run s trace = Some s' ∧ paced s' (lastClock t trace).
Proof.
  induction trace as [|c trace IH]; intros s t Ht Hord.
  - by exists s.
  - destruct Hord as [Hc Hord]. destruct (step_total s c) as [s1 Hs1].
    destruct (IH s1 c.1) as (s' & Hrun & Ht'); [by eapply paced_step|done|].
    exists s'. split; [|done]. unfold run in *. simpl. by rewrite Hs1.
Qed.


Lemma timely_new opts t : timely (new opts) t.
Proof.
  split; [split|]; simpl; try done;
    intros n evs; rewrite lookup_empty; done.
Qed.

(** X17.  Sequences stay in timestamp order.  When the clock never
    goes back, every event sequence of the instance is in
    non-decreasing order of timestamp after any run, and no event is
    stamped after the last reading: the order the comments of
    [deleteEventData] and of the event stream rely on. *)
Theorem sequences_stay_ordered `{HdrHistogram} opts t0 trace :
  clockOrdered t0 trace →
  ∃ s, run (new opts) trace = Some s
       ∧ (∀ name evs, _events s !! name = Some evs →
                      StronglySorted byTimestamp evs)
       ∧ (∀ name evs ev, _events s !! name = Some evs → ev ∈ evs →
                         ts ev ≤ lastClock t0 trace).
Proof.
  intros Hord.
  destruct (paced_run trace (new opts) t0 (proj1 (timely_new opts t0)) Hord)
    as (s & Hrun & Hle & Hsorted).
  by exists s.
Qed.


(** ** Nothing recorded for a counter is lost or counted twice *)







(** ** Rounding *)

Lemma Qfloor_unique (q : Q) (z : Z) :
  (inject_Z z <= q)%Q → (q < inject_Z (z + 1))%Q → Qfloor q = z.
Proof.
  intros Hle Hlt.
  pose proof (Qfloor_le q) as H1. pose proof (Qlt_floor q) as H2.
  assert (Qfloor q < z + 1).
  { rewrite Zlt_Qlt. eapply Qle_lt_trans; eauto. }
  assert (z < Qfloor q + 1).
  { rewrite Zlt_Qlt. eapply Qle_lt_trans; eauto. }
  lia.
Qed.


Lemma this_Z2Qc z : (this (Z2Qc z) == inject_Z z)%Q.
Proof. unfold Z2Qc. simpl. apply Qred_correct. Qed.





Lemma Math_round_integer k : Math_round (Z2Qc k) = k.
Proof.
  unfold Math_round, Qcplus. cbn [this Q2Qc].
  match goal with
  | |- Qfloor ?a = _ => assert (a == inject_Z k + (1 # 2))%Q as Heq
  end.
  { rewrite Qred_correct. apply Qplus_comp; [apply this_Z2Qc|apply Qred_correct]. }
  rewrite (Qfloor_comp _ _ Heq). apply Qfloor_unique.
  - lra.
  - rewrite inject_Z_plus. change (inject_Z 1) with 1%Q. lra.
Qed.


(** ** The further properties on the scenarios *)

Lemma declaring_frames_other_names_witness :
  _events (describeMetrics basicState counterDefs) !! "engine.http.request.count"
  = _events basicState !! "engine.http.request.count"
  ∧ _periods (describeMetrics basicState counterDefs) = _periods basicState.
Proof.
  destruct (declaring_frames_other_names basicState counterDefs
              "engine.http.request.count") as (He & _ & _ & _ & Hp & _).
  - intros Hin. vm_compute in Hin.
    apply elem_of_cons in Hin as [Hin|Hin]; [discriminate|].
    by apply not_elem_of_nil in Hin.
  - by split.
Defined.

Lemma getPeriod_stable_witness :
  ∃ s', run (H := exactHistogram) onePeriodFinal
          [(5200, CallEvent "engine.http.request.count" 4 ∅);
           (8000, CallAggregate "a81e")] = Some s'
        ∧ getPeriod s' "5f0c" = Some onePeriodResult.
Proof.
  apply (getPeriod_stable (H := exactHistogram) onePeriodFinal).
  vm_compute. reflexivity.
Defined.

Lemma closing_tick_is_queryable_witness :
  ∃ s' p,
    defaultAggregator (H := exactHistogram) basicState 5000 "5f0c" = Some s'
    ∧ _periods s' = (_periods basicState ++ [p])%list
    ∧ getPeriod s' "5f0c" = Some p
    ∧ listPeriods s' = (listPeriods basicState ++ [Some (PString "5f0c")])%list.
Proof.
  apply (closing_tick_is_queryable (H := exactHistogram) basicState 5000 "5f0c" 1000).
  - exact basicState_closes.
  - exact basicState_plainTimers.
  - vm_compute. reflexivity.
Defined.


Lemma no_event_no_period_witness :
  ∃ s, run (H := exactHistogram) create marksOnlyTrace = Some s
       ∧ _periods s = [] ∧ _nextPeriodBeginning s = None.
Proof.
  apply (no_event_no_period (H := exactHistogram) (mkOpts None None) marksOnlyTrace).
  unfold marksOnlyTrace.
  repeat (apply List.Forall_cons; [reflexivity|]). apply List.Forall_nil.
Defined.

Lemma watermarkRecorded_closes : closes watermarkRecorded 21000 1000.
Proof. split; [vm_compute; reflexivity | vm_compute; discriminate]. Defined.

Lemma watermark_always_zero_witness :
  ∃ s' p,
    defaultAggregator (H := exactHistogram) watermarkRecorded 21000 "c3d4" = Some s'
    ∧ _periods s' = (_periods watermarkRecorded ++ [p])%list
    ∧ p !! "engine.http.request.concurrency" = Some (watermarkEntry 0)
    ∧ _timers s' !! "engine.http.request.concurrency" = Some [].
Proof.
  apply (watermark_always_zero (H := exactHistogram) watermarkRecorded 21000 "c3d4" 1000).
  - exact watermarkRecorded_closes.
  - vm_compute. eexists. reflexivity.
Defined.

Lemma metrics_entries_follow_declared_types_witness :
  ∃ s' p,
    defaultAggregator (H := exactHistogram) basicState 5000 "5f0c" = Some s'
    ∧ _periods s' = (_periods basicState ++ [p])%list
    ∧ is_Some (periodMetric p "engine.http.response.time")
    ∧ ¬ is_Some (periodMetric p "engine.http.request.concurrency").
Proof.
  destruct (metrics_entries_follow_declared_types (H := exactHistogram)
              basicState 5000 "5f0c" 1000 basicState_closes basicState_plainTimers)
    as (s' & p & Hrun & Hps & Hentries).
  exists s', p. split; [exact Hrun|]. split; [exact Hps|]. split.
  - apply (Hentries "engine.http.response.time"). split.
    + vm_compute. eexists. reflexivity.
    + right. right. vm_compute. reflexivity.
  - intros Hsome.
    apply (Hentries "engine.http.request.concurrency") in Hsome as [[evs Hevs] _].
    vm_compute in Hevs. discriminate.
Defined.

Lemma counterTrace_ordered : clockOrdered 0 counterTrace.
Proof. unfold counterTrace. simpl. repeat split; vm_compute; discriminate. Defined.

Lemma sequences_stay_ordered_witness :
  ∃ s, run (H := exactHistogram) (new testOpts) counterTrace = Some s
       ∧ (∀ name evs, _events s !! name = Some evs →
                      StronglySorted byTimestamp evs)
       ∧ (∀ name evs ev, _events s !! name = Some evs → ev ∈ evs →
                         ts ev ≤ lastClock 0 counterTrace).
Proof.
  apply (sequences_stay_ordered (H := exactHistogram) testOpts 0 counterTrace).
  exact counterTrace_ordered.
Defined.



(** The run of the last scenario in numbers: 5 + 7 reported by the
    first period, nothing by the second, 11 still pending. *)
Example counterTrace_numbers :
  (s ← run (H := exactHistogram) (describeMetrics (new testOpts) counterDefs)
         counterTrace;
   Some (map (λ p, numberOf (periodMetric p "requests")) (_periods s),
         pending s "requests", recorded "requests" counterTrace))
  = Some ([12; 0], 11, 23).
Proof. vm_compute. reflexivity. Qed.

(** * Properties of the console reporter *)

Module ConsoleReporterFacts.
Import ConsoleReporter.

#[local] Arguments printReport : simpl never.

Lemma spinningAfter_app b o1 o2 :
  spinningAfter b (o1 ++ o2) = spinningAfter (spinningAfter b o1) o2.
Proof.
  revert b. induction o1 as [|o o1 IH]; intros b; simpl; [done|].
  by destruct o.
Qed.

Lemma logsWhileStopped_app b o1 o2 :
  logsWhileStopped b (o1 ++ o2)
  = logsWhileStopped b o1 && logsWhileStopped (spinningAfter b o1) o2.
Proof.
  revert b. induction o1 as [|o o1 IH]; intros b; simpl; [done|].
  destruct o; rewrite ?IH; try done. by rewrite andb_assoc.
Qed.

Lemma onlyLogs_stopped outs :
  onlyLogs outs →
  logsWhileStopped false outs = true ∧ ∀ b, spinningAfter b outs = b.
Proof.
  induction 1 as [|o outs [args ->] _ [IH1 IH2]]; simpl; [done|].
  by rewrite IH1.
Qed.

(** Going through the lines of [printReport], with [tac] to settle
    each line. *)
Ltac report_lines tac :=
  unfold printReport, latencyLines;
  repeat match goal with
         | |- Forall _ (if ?b then _ else _) => destruct b
         | |- Forall _ (match ?x with _ => _ end) => destruct x
         | |- Forall _ (_ :: _) => apply Forall_cons; split; [tac|]
         | |- Forall _ [] => apply Forall_nil_2
         | |- Forall _ (_ ++ _) => apply Forall_app; split
         | |- Forall _ (map _ _) =>
             apply Forall_fmap, Forall_forall; intros [? ?] _; tac
         | |- Forall _ (concat _) =>
             apply Forall_concat, Forall_fmap, Forall_forall; intros [? ?] _;
             simpl
         end.

Lemma printReport_onlyLogs r report showCounts :
  onlyLogs (printReport r report showCounts).
Proof. unfold onlyLogs. report_lines ltac:(by eexists). Qed.

Lemma printReport_no_warning r report showCounts :
  List.filter isFirstWarning (printReport r report showCounts) = [].
Proof.
  assert (Forall (λ o, isFirstWarning o = false)
            (printReport r report showCounts)) as Hall
    by report_lines ltac:(done).
  induction Hall as [|o outs Ho _ IH]; cbn [List.filter]; [done|].
  by rewrite Ho.
Qed.

(** One event, for a reporter that is not quiet and whose spinner is
    on: the spinner is stopped before the first line and started again
    after the last. *)
Lemma handle_spinning disabled r e :
  quiet r = false → spinnerOn r = true → isDone e = false →
  quiet (handle disabled r e).1 = false
  ∧ spinnerOn (handle disabled r e).1 = true
  ∧ logsWhileStopped true (handle disabled r e).2 = true
  ∧ spinningAfter true (handle disabled r e).2 = true.
Proof.
  intros Hq Hs Hd. destruct r as [q sp lat st lw aw]. simpl in Hq, Hs. subst.
  destruct e as [now phase|now report|now now' pids|report]; [| | |done].
  - done.
  - cbv [handle stats toggleSpinner quiet spinnerOn reportScenarioLatency
         startTime lastWarningAt alreadyWarned negb].
    match goal with
    | |- context [printReport ?r0 report false] =>
        destruct (onlyLogs_stopped _ (printReport_onlyLogs r0 report false))
          as [H1 H2];
        generalize dependent (printReport r0 report false)
    end.
    intros lines H1 H2. simpl. split; [done|]. split; [done|].
    rewrite logsWhileStopped_app, spinningAfter_app, H1, H2. simpl.
    by rewrite ?H2.
  - unfold handle, highcpu, toggleSpinner. simpl. destruct disabled; [done|].
    destruct (_ <? _); [|done]. simpl. by destruct aw.
Qed.

Lemma handleAll_spinning disabled es :
  ∀ r, quiet r = false → spinnerOn r = true →
       Forall (λ e, isDone e = false) es →
       quiet (handleAll disabled r es).1 = false
       ∧ spinnerOn (handleAll disabled r es).1 = true
       ∧ logsWhileStopped true (handleAll disabled r es).2 = true
       ∧ spinningAfter true (handleAll disabled r es).2 = true.
Proof.
  induction es as [|e es IH]; intros r Hq Hs Hd; simpl; [done|].
  apply Forall_cons in Hd as [He Hd].
  destruct (handle_spinning disabled r e Hq Hs He) as (Hq1 & Hs1 & Hl1 & Ha1).
  destruct (handle disabled r e) as [r1 o1]. simpl in *.
  destruct (IH r1 Hq1 Hs1 Hd) as (Hq2 & Hs2 & Hl2 & Ha2).
  destruct (handleAll disabled r1 es) as [r2 o2]. simpl in *.
  by rewrite logsWhileStopped_app, spinningAfter_app, Hl1, Ha1, Hl2, Ha2.
Qed.

(** X22.  No line is written while the spinner spins.  A reporter
    created without [quiet] starts the spinner; then, over any
    sequence of [phaseStarted], [stats] and [highcpu] events, every
    line is written with the spinner stopped and the spinner is on
    again after each event; a final [done] writes its lines with the
    spinner stopped and leaves it stopped. *)
Theorem lines_written_with_spinner_stopped disabled latency now now' events report :
  Forall (λ e, isDone e = false) events →
  let created := createConsoleReporter false latency now now' in
  let handled := handleAll disabled created.1 events in
  let finished := done handled.1 report in
  spinnerOn handled.1 = true
  ∧ spinningAfter false (created.2 ++ handled.2) = true
  ∧ logsWhileStopped false (created.2 ++ handled.2 ++ finished.2) = true
  ∧ spinningAfter false (created.2 ++ handled.2 ++ finished.2) = false.
Proof.
  intros Hd created handled finished.
  destruct (handleAll_spinning disabled events created.1) as (Hq & Hs & Hl & Ha);
    [done..|]. fold handled in Hq, Hs, Hl, Ha.
  split; [done|]. split; [by rewrite spinningAfter_app|].
  assert (logsWhileStopped true finished.2 = true
          ∧ spinningAfter true finished.2 = false) as [Hl2 Ha2].
  { unfold finished. destruct handled.1 as [q sp lat st lw aw].
    simpl in Hq, Hs. subst.
    cbv [done toggleSpinner quiet spinnerOn reportScenarioLatency
         startTime lastWarningAt alreadyWarned negb].
    match goal with
    | |- context [printReport ?r0 report true] =>
        destruct (onlyLogs_stopped _ (printReport_onlyLogs r0 report true))
          as [H1 H2];
        generalize dependent (printReport r0 report true)
    end.
    intros lines H1 H2. simpl. by rewrite H1, H2. }
  rewrite !logsWhileStopped_app, !spinningAfter_app. simpl.
  by rewrite Hl, Ha, Hl2, Ha2.
Qed.

(** X23.  [quiet] silences everything but the CPU warning.  A quiet
    reporter writes nothing and keeps its state over any sequence of
    [phaseStarted], [stats] and [done] events; [highcpu] does not read
    [quiet]: when a warning is due it starts the spinner, writes the
    warning and stops the spinner. *)
Theorem quiet_silences_all_but_highcpu disabled r events now now' busyPids :
  quiet r = true →
  (Forall (λ e, isHighCpu e = false) events →
   handleAll disabled r events = (r, []))
  ∧ (spinnerOn r = false → 10 * 1000 < now - lastWarningAt r →
     ∃ args, (highcpu false r now now' busyPids).2
             = [SpinnerStart; ConsoleLog args; SpinnerStop]).
Proof.
  intros Hq. split.
  - induction events as [|e es IH]; intros Hh; simpl; [done|].
    apply Forall_cons in Hh as [He Hh].
    assert (handle disabled r e = (r, [])) as ->.
    { destruct e; simpl in *; try done;
        unfold phaseStarted, stats, done; by rewrite Hq. }
    by rewrite (IH Hh).
  - intros Hs Hdue. unfold highcpu, toggleSpinner.
    destruct (Z.ltb_spec (10 * 1000) (now - lastWarningAt r)); [|lia].
    rewrite Hs. simpl. destruct (alreadyWarned r); by eexists.
Qed.

(** X24.  CPU warnings are at least ten seconds apart.  When a call of
    [highcpu] has written a warning, a following call whose clock
    reading is within 10000 ms of the reading the first one stored
    writes nothing and changes nothing. *)
Theorem highcpu_rate_limited disabled r now1 now1' pids1 now2 now2' pids2 :
  (highcpu disabled r now1 now1' pids1).2 ≠ [] →
  now2 - now1' ≤ 10 * 1000 →
  highcpu disabled (highcpu disabled r now1 now1' pids1).1 now2 now2' pids2
  = ((highcpu disabled r now1 now1' pids1).1, []).
Proof.
  unfold highcpu at 1 3 4. destruct disabled; [done|].
  destruct (10 * 1000 <? now1 - lastWarningAt r); [|done]. simpl.
  intros _ Hgap. unfold highcpu. simpl.
  by destruct (Z.ltb_spec (10 * 1000) (now2 - now1')); [lia|].
Qed.

Lemma handle_first_warning disabled r e :
  (length (List.filter isFirstWarning (handle disabled r e).2)
   ≤ if alreadyWarned r then 0 else 1)%nat
  ∧ (length (List.filter isFirstWarning (handle disabled r e).2) = 1%nat →
     alreadyWarned (handle disabled r e).1 = true)
  ∧ (alreadyWarned r = true → alreadyWarned (handle disabled r e).1 = true).
Proof.
  destruct r as [q sp lat st lw aw].
  destruct e as [now phase|now report|now now' pids|report];
    cbv [handle phaseStarted stats highcpu done toggleSpinner quiet spinnerOn
         reportScenarioLatency startTime lastWarningAt alreadyWarned];
    try (destruct disabled; [destruct aw; simpl; repeat split; (lia || done)|]);
    try (destruct (_ <? _));
    destruct q; cbn [fst snd];
    rewrite ?List.filter_app, ?printReport_no_warning;
    destruct sp, aw; simpl; repeat split; try lia; try done.
Qed.

(** X25.  The long warning is written once at most.  Over any
    sequence of events the outputs hold at most one first, long CPU
    warning, and none if the reporter had already warned. *)
Theorem first_warning_at_most_once disabled events :
  ∀ r, (length (List.filter isFirstWarning (handleAll disabled r events).2)
        ≤ if alreadyWarned r then 0 else 1)%nat.
Proof.
  induction events as [|e es IH]; intros r; simpl; [destruct (alreadyWarned r); lia|].
  destruct (handle_first_warning disabled r e) as (Hle & Hone & Hkeep).
  destruct (handle disabled r e) as [r1 o1]. simpl in *.
  specialize (IH r1). destruct (handleAll disabled r1 es) as [r2 o2]. simpl in *.
  rewrite List.filter_app, length_app.
  destruct (alreadyWarned r); [rewrite (Hkeep eq_refl) in IH; lia|].
  destruct (alreadyWarned r1) eqn:Hw1; [lia|].
  assert (length (List.filter isFirstWarning o1) ≠ 1%nat) by (intros ?%Hone; done).
  lia.
Qed.

(** X26.  Meters are written only next to custom stats or counters.
    When a report holds neither custom stats nor counters, what
    [printReport] writes does not depend on its meters: none of them
    is written. *)
Theorem meters_need_stats_or_counters r report showCounts m :
  customStats report = [] → counters report = [] →
  printReport r (withMeters m report) showCounts
  = printReport r (withMeters [] report) showCounts.
Proof. intros Hs Hc. unfold printReport. cbn. by rewrite Hs, Hc. Qed.

Lemma this_Qcmult (x y : Qc) : (this (x * y)%Qc == this x * this y)%Q.
Proof. unfold Qcmult. cbn [this Q2Qc]. apply Qred_correct. Qed.

Lemma this_Qcdiv (x y : Qc) : (this (x / y)%Qc == this x / this y)%Q.
Proof.
  unfold Qcdiv, Qcinv. rewrite this_Qcmult. cbn [this Q2Qc].
  unfold Qdiv. apply Qmult_comp; [reflexivity|apply Qred_correct].
Qed.

Lemma Math_round_mono (x y : Qc) : (x <= y)%Qc → Math_round x ≤ Math_round y.
Proof.
  intros Hxy. unfold Math_round. apply Qfloor_resp_le.
  unfold Qcplus. cbn [this Q2Qc]. rewrite !Qred_correct.
  apply Qplus_le_compat; [exact Hxy|apply Qle_refl].
Qed.

(** X27.  The share of a scenario is a percentage.  When at least one
    scenario was created and the count of a scenario is between 0 and
    the number created, the share [printReport] writes is a number
    between 0 and 100. *)
Theorem percentage_in_range count created :
  0 < created → 0 ≤ count ≤ created →
  ∃ q, percentage count created = ANum q
       ∧ (Z2Qc 0 <= q)%Qc ∧ (q <= Z2Qc 100)%Qc.
Proof.
  intros Hc [H0 H1]. unfold percentage.
  destruct (Z.eqb_spec created 0); [lia|]. eexists. split; [reflexivity|].
  set (X := (Z2Qc count / Z2Qc created * Z2Qc 100 * Z2Qc 1000)%Qc).
  assert (0 < inject_Z created)%Q as Hcq.
  { change 0%Q with (inject_Z 0). by rewrite <- Zlt_Qlt. }
  assert (this X == inject_Z count / inject_Z created * 100 * 1000)%Q as HX.
  { unfold X. rewrite !this_Qcmult, this_Qcdiv, !this_Z2Qc. reflexivity. }
  assert (0 <= inject_Z count / inject_Z created)%Q as Hlo.
  { apply Qle_shift_div_l; [done|]. rewrite Qmult_0_l.
    change 0%Q with (inject_Z 0). by rewrite <- Zle_Qle. }
  assert (inject_Z count / inject_Z created <= 1)%Q as Hhi.
  { apply Qle_shift_div_r; [done|]. rewrite Qmult_1_l. by rewrite <- Zle_Qle. }
  assert (0 ≤ Math_round X ≤ 100000) as [Hr0 Hr1].
  { rewrite <- (Math_round_integer 0), <- (Math_round_integer 100000).
    split; apply Math_round_mono; unfold Qcle; rewrite HX, this_Z2Qc.
    - change (inject_Z 0) with 0%Q. nra.
    - change (inject_Z 100000) with 100000%Q. nra. }
  unfold Qcle. rewrite this_Qcdiv, !this_Z2Qc.
  rewrite Zle_Qle in Hr0, Hr1.
  change (inject_Z 0) with 0%Q in *. change (inject_Z 100000) with 100000%Q in Hr1.
  change (inject_Z 1000) with 1000%Q. change (inject_Z 100) with 100%Q.
  split.
  - apply Qle_shift_div_l; [reflexivity|]. lra.
  - apply Qle_shift_div_r; [reflexivity|]. lra.
Qed.

(** *** The properties on a scenario *)

Lemma sampleEvents_not_done : Forall (λ e, isDone e = false) sampleEvents.
Proof.
  unfold sampleEvents. repeat (apply List.Forall_cons; [reflexivity|]).
  apply List.Forall_nil.
Defined.

Lemma lines_written_with_spinner_stopped_witness :
  let created := createConsoleReporter false true 0 0 in
  let handled := handleAll false created.1 sampleEvents in
  let finished := done handled.1 sampleReport in
  logsWhileStopped false (created.2 ++ handled.2 ++ finished.2) = true
  ∧ spinningAfter false (created.2 ++ handled.2 ++ finished.2) = false.
Proof.
  destruct (lines_written_with_spinner_stopped false true 0 0 sampleEvents
              sampleReport sampleEvents_not_done) as (_ & _ & Hl & Ha).
  split; [exact Hl|exact Ha].
Defined.

Lemma quiet_silences_all_but_highcpu_witness :
  handleAll false (new true false 0 0)
    [EvPhaseStarted 100 samplePhase; EvStats 10000 sampleReport;
     EvDone sampleReport]
  = (new true false 0 0, [])
  ∧ ∃ args, (highcpu false (new true false 0 0) 10001 10002 ["4242"]).2
            = [SpinnerStart; ConsoleLog args; SpinnerStop].
Proof.
  destruct (quiet_silences_all_but_highcpu false (new true false 0 0)
              [EvPhaseStarted 100 samplePhase; EvStats 10000 sampleReport;
               EvDone sampleReport] 10001 10002 ["4242"] eq_refl)
    as [Hsilent Hwarn].
  split.
  - apply Hsilent. repeat (apply List.Forall_cons; [reflexivity|]).
    apply List.Forall_nil.
  - apply Hwarn; [reflexivity|vm_compute; reflexivity].
Defined.

Lemma highcpu_rate_limited_witness :
  highcpu false (highcpu false (new false false 0 0) 10001 10002 ["4242"]).1
    20002 20003 ["4242"]
  = ((highcpu false (new false false 0 0) 10001 10002 ["4242"]).1, []).
Proof.
  apply (highcpu_rate_limited false (new false false 0 0) 10001 10002 ["4242"]
           20002 20003 ["4242"]).
  - vm_compute. discriminate.
  - vm_compute. discriminate.
Defined.

(** The recognizer of the first warning tells the two texts apart, and
    the scenario writes the first warning once, then the later one. *)
Example first_warning_scenario :
  isFirstWarning (ConsoleLog [warningLabel; AStyled "yellow" (firstWarning ["1"])])
  = true
  ∧ isFirstWarning (ConsoleLog [warningLabel; AStyled "yellow" (laterWarning ["1"])])
    = false
  ∧ length (List.filter isFirstWarning
              (handleAll false (createConsoleReporter false true 0 0).1
                 sampleEvents).2) = 1%nat.
Proof. repeat split; vm_compute; reflexivity. Qed.

Lemma meters_need_stats_or_counters_witness :
  printReport (new false false 0 0)
    (withMeters [("engine.http.response.rate", AInt 7)] metersOnlyReport) false
  = [ConsoleLog [AStr "  scenarios.launched:  %s"; AInt 20];
     ConsoleLog [AStr "  scenarios.completed: %s"; AInt 18];
     ConsoleLog []].
Proof.
  rewrite (meters_need_stats_or_counters (new false false 0 0) metersOnlyReport
             false [("engine.http.response.rate", AInt 7)]);
    reflexivity.
Defined.

Lemma percentage_in_range_witness :
  ∃ q, percentage 15 20 = ANum q ∧ (Z2Qc 0 <= q)%Qc ∧ (q <= Z2Qc 100)%Qc.
Proof.
  apply (percentage_in_range 15 20); [vm_compute; reflexivity|].
  split; vm_compute; discriminate.
Defined.

End ConsoleReporterFacts.
